(** * AI Expense Tracker: a shallow embedding of the FastAPI service

    The development follows the files of the repository, in this order:
    app/models/models.py (the ORM rows and the session), app/schemas/schemas.py
    (request and response bodies), app/core/security.py and
    app/core/dependencies.py (password hashing, tokens, the auth guard),
    app/routers/auth.py (register, login, profile), app/routers/expense.py
    (the expense ledger and its statistics) and app/main.py (the application
    and its routes).  The theorems come after the definitions.

    Conventions.  A [datetime] is an integer number of seconds and a
    [timedelta] a number of seconds; every call of [datetime.utcnow()] is an
    explicit argument [now].  An amount is a Python [float], an IEEE 754
    binary64 number, modelled by Rocq's primitive floats.  A handler that
    raises returns [Raise]; a handler that writes returns the new session
    next to its result.  The [current_user] argument of a protected handler
    is the user the auth guard resolved.  The two external libraries
    (passlib's [CryptContext], python-jose's [jwt]) are type classes stating
    the part of their contract the program relies on; the random salt of a
    password hash is an explicit argument. *)

From Stdlib Require Import ZArith Floats Uint63 Ascii String Sorted.
From stdpp Require Import gmap strings list fin_maps.

Local Open Scope Z_scope.
Set Warnings "-inexact-float".

(** ** Outcomes of a Python call *)

Inductive exn : Type :=
  | HTTPException (status_code : Z) (detail : string)
  | IntegrityError.

Inductive result (A : Type) : Type :=
  | Ok (a : A)
  | Raise (e : exn).
Arguments Ok {A} a.
Arguments Raise {A} e.

Definition HTTP_201_CREATED : Z := 201.
Definition HTTP_400_BAD_REQUEST : Z := 400.
Definition HTTP_401_UNAUTHORIZED : Z := 401.
Definition HTTP_404_NOT_FOUND : Z := 404.

(** Python truthiness of the values the handlers test with [if x:]. *)
Definition truthy_str (s : string) : bool := negb (String.eqb s "").

(** ** External libraries *)

(** The scalar values of a token payload; JSON [null] is identified with an
    absent key, which is how [payload.get] reads both. *)
Inductive json : Type :=
  | JStr (s : string)
  | JNum (n : Z)
  | JBool (b : bool).

#[global] Instance json_eq_dec : EqDecision json.
Proof. solve_decision. Defined.

(** python-jose.  [jwt_decode token key alg now] is [jwt.decode(token, key,
    algorithms=[alg])] run at time [now]; [None] stands for every [JWTError]
    (bad signature, malformed token, expired, invalid claim).  The one law is
    the round trip of a payload of the shape this program signs: a string
    subject, an integer expiry, possibly a [type]; jose rejects the token
    once [exp < now]. *)
Class Jose : Type := {
  jwt : Type;
  jwt_encode : gmap string json -> string -> string -> jwt;
  jwt_decode : jwt -> string -> string -> Z -> option (gmap string json);
  jwt_decode_encode :
    forall (c : gmap string json) (sub : string) (exp : Z) (key alg : string) (now : Z),
      c !! "sub" = Some (JStr sub) ->
      c !! "exp" = Some (JNum exp) ->
      dom c ⊆ {[ "sub"; "type"; "exp" ]} ->
      jwt_decode (jwt_encode c key alg) key alg now =
        if exp <? now then None else Some c
}.

(** passlib's [CryptContext(schemes=["bcrypt"])].  The random salt bcrypt
    draws is the explicit first argument of [pwd_hash]. *)
Class CryptContext : Type := {
  pwd_hash : string -> string -> string;
  pwd_verify : string -> string -> bool;
  pwd_verify_hash : forall salt password, pwd_verify password (pwd_hash salt password) = true
}.

(** ** app/models/models.py *)

Inductive ExpenseCategory : Type :=
  | FOOD | TRANSPORT | UTILITIES | ENTERTAINMENT
  | HEALTHCARE | SHOPPING | EDUCATION | OTHER.

#[global] Instance ExpenseCategory_eq_dec : EqDecision ExpenseCategory.
Proof. solve_decision. Defined.

(** [category.value] *)
Definition category_value (c : ExpenseCategory) : string :=
  match c with
  | FOOD => "food" | TRANSPORT => "transport" | UTILITIES => "utilities"
  | ENTERTAINMENT => "entertainment" | HEALTHCARE => "healthcare"
  | SHOPPING => "shopping" | EDUCATION => "education" | OTHER => "other"
  end.

Module User.
Record t : Type := mk {
  id : Z;
  email : string;
  username : string;
  hashed_password : string;
  full_name : option string;
  is_active : Z;
  created_at : Z
}.
End User.

Module Expense.
(** [title], [amount], [category] and [user_id] are [nullable=False];
    [description], [date] and the two AI columns may hold NULL. *)
Record t : Type := mk {
  id : Z;
  title : string;
  amount : float;
  category : ExpenseCategory;
  description : option string;
  date : option Z;
  created_at : Z;
  updated_at : Z;
  user_id : Z;
  ai_confidence : option float;
  ai_suggested_category : option string
}.
End Expense.

(** The session: the two tables in primary-key (insertion) order and the
    auto-increment counters. *)
Record Session : Type := mkSession {
  users : list User.t;
  expenses : list Expense.t;
  next_user_id : Z;
  next_expense_id : Z
}.

(** [query.first()] *)
Definition first {A} (rows : list A) : option A := head rows.

(** [Expense.date >= d] and [Expense.date <= d]; a NULL date satisfies
    neither comparison. *)
Definition date_ge (e : Expense.t) (d : Z) : Prop :=
  match Expense.date e with Some v => d <= v | None => False end.
Definition date_le (e : Expense.t) (d : Z) : Prop :=
  match Expense.date e with Some v => v <= d | None => False end.

(** [Expense.category == c] *)
Definition category_is (e : Expense.t) (c : ExpenseCategory) : Prop :=
  Expense.category e = c.
#[global] Instance category_is_dec e c : Decision (category_is e c).
Proof. unfold category_is. apply _. Defined.

#[global] Instance date_ge_dec e d : Decision (date_ge e d).
Proof. unfold date_ge. destruct (Expense.date e); apply _. Defined.
#[global] Instance date_le_dec e d : Decision (date_le e d).
Proof. unfold date_le. destruct (Expense.date e); apply _. Defined.

(** [if x: query = query.filter(p x)] for an optional query parameter whose
    values are all truthy (a [datetime], a category). *)
Definition filter_if {A B} (x : option B) (P : B -> A -> Prop)
    `{forall b a, Decision (P b a)} (rows : list A) : list A :=
  match x with
  | Some b => filter (P b) rows
  | None => rows
  end.

(** [order_by(Expense.date.desc())]: newest first, NULL dates last, rows
    with equal dates kept in table order. *)
Definition date_geb (d1 d2 : option Z) : bool :=
  match d1, d2 with
  | _, None => true
  | None, Some _ => false
  | Some a, Some b => b <=? a
  end.

Fixpoint insert_desc (e : Expense.t) (sorted : list Expense.t) : list Expense.t :=
  match sorted with
  | [] => [e]
  | x :: rest =>
      if date_geb (Expense.date e) (Expense.date x)
      then e :: x :: rest
      else x :: insert_desc e rest
  end.

Definition order_by_date_desc (rows : list Expense.t) : list Expense.t :=
  foldr insert_desc [] rows.

(** ** app/schemas/schemas.py *)

Module ExpenseStatistics.
Record t : Type := mk {
  total_expenses : float;
  expense_count : nat;
  average_expense : float;
  by_category : gmap string float
}.
End ExpenseStatistics.

Module UserCreate.
Record t : Type := mk {
  email : string;
  username : string;
  full_name : option string;
  password : string
}.
End UserCreate.

Module UserUpdate.
Record t : Type := mk {
  email : option string;
  username : option string;
  full_name : option string;
  password : option string
}.
End UserUpdate.

(** [UserResponse] has no field for the password hash. *)
Module UserResponse.
Record t : Type := mk {
  email : string;
  username : string;
  full_name : option string;
  id : Z;
  is_active : Z;
  created_at : Z
}.
End UserResponse.

(** [response_model=UserResponse] with [from_attributes = True]. *)
Definition UserResponse_from_attributes (user : User.t) : UserResponse.t :=
  {| UserResponse.email := User.email user;
     UserResponse.username := User.username user;
     UserResponse.full_name := User.full_name user;
     UserResponse.id := User.id user;
     UserResponse.is_active := User.is_active user;
     UserResponse.created_at := User.created_at user |}.

Module ExpenseCreate.
Record t : Type := mk {
  title : string;
  amount : float;
  category : ExpenseCategory;
  description : option string;
  date : option Z
}.
End ExpenseCreate.

(** Every field of [ExpenseUpdate] is optional, and [dict(exclude_unset=True)]
    keeps the fields the request set, a field set to [null] included.  So a
    field is [None] when the request left it out, [Some None] when it set it
    to [null], and [Some (Some v)] when it gave the value [v]. *)
Module ExpenseUpdate.
Record t : Type := mk {
  title : option (option string);
  amount : option (option float);
  category : option (option ExpenseCategory);
  description : option (option string);
  date : option (option Z)
}.
End ExpenseUpdate.

(** ** app/core/security.py *)

(** [os.getenv(name)] for the three variables the module reads, the third
    already through [int]. *)
Record Environ : Type := mkEnviron {
  env_SECRET_KEY : option string;
  env_ALGORITHM : option string;
  env_ACCESS_TOKEN_EXPIRE_MINUTES : option Z
}.

Record Settings : Type := mkSettings {
  SECRET_KEY : string;
  ALGORITHM : string;
  ACCESS_TOKEN_EXPIRE_MINUTES : Z
}.

Definition load_settings (env : Environ) : Settings :=
  {| SECRET_KEY :=
       default "your-secret-key-here-change-this-in-production" (env_SECRET_KEY env);
     ALGORITHM := default "HS256" (env_ALGORITHM env);
     ACCESS_TOKEN_EXPIRE_MINUTES := default 30 (env_ACCESS_TOKEN_EXPIRE_MINUTES env) |}.

(** [timedelta], in seconds. *)
Definition minutes (n : Z) : Z := 60 * n.
Definition hours (n : Z) : Z := 3600 * n.
Definition days (n : Z) : Z := 86400 * n.

Section security.
Context {jose : Jose} {pwd_context : CryptContext} (settings : Settings).

Definition verify_password (plain_password hashed_password : string) : bool :=
  pwd_verify plain_password hashed_password.

Definition get_password_hash (salt password : string) : string :=
  pwd_hash salt password.

(** A zero [timedelta] is falsy, so it takes the default branch too. *)
Definition create_access_token (data : gmap string json) (expires_delta : option Z)
    (now : Z) : jwt :=
  let to_encode := data in
  let expire :=
    match expires_delta with
    | Some delta =>
        if delta =? 0
        then now + minutes (ACCESS_TOKEN_EXPIRE_MINUTES settings)
        else now + delta
    | None => now + minutes (ACCESS_TOKEN_EXPIRE_MINUTES settings)
    end in
  let to_encode := <["exp" := JNum expire]> to_encode in
  jwt_encode to_encode (SECRET_KEY settings) (ALGORITHM settings).

Definition verify_token (token : jwt) (credentials_exception : exn) (now : Z)
    : result json :=
  match jwt_decode token (SECRET_KEY settings) (ALGORITHM settings) now with
  | Some payload =>
      match payload !! "sub" with
      | None => Raise credentials_exception
      | Some username => Ok username
      end
  | None => Raise credentials_exception
  end.

Definition create_reset_password_token (email : string) (now : Z) : jwt :=
  let data : gmap string json :=
    <["sub" := JStr email]> (<["type" := JStr "password_reset"]> ∅) in
  let expires := hours 1 in
  create_access_token data (Some expires) now.

Definition verify_reset_token (token : jwt) (now : Z) : result (option json) :=
  match jwt_decode token (SECRET_KEY settings) (ALGORITHM settings) now with
  | Some payload =>
      if decide (payload !! "type" <> Some (JStr "password_reset"))
      then Ok None
      else Ok (payload !! "sub")
  | None => Ok None
  end.

(** ** app/core/dependencies.py *)

Definition credentials_exception : exn :=
  HTTPException HTTP_401_UNAUTHORIZED "Could not validate credentials".

Definition get_current_user (token : jwt) (now : Z) (db : Session) : result User.t :=
  match verify_token token credentials_exception now with
  | Raise e => Raise e
  | Ok username =>
      match first (filter (λ u, JStr (User.username u) = username) (users db)) with
      | None => Raise credentials_exception
      | Some user => Ok user
      end
  end.

Definition get_current_active_user (current_user : result User.t) : result User.t :=
  match current_user with
  | Raise e => Raise e
  | Ok current_user =>
      if User.is_active current_user =? 0
      then Raise (HTTPException 400 "Inactive user")
      else Ok current_user
  end.

End security.

(** ** app/routers/auth.py *)

(** [db.add(new_user); db.commit(); db.refresh(new_user)]: the row gets the
    next id and the column defaults. *)
Definition add_user (email username : string) (full_name : option string)
    (hashed_password : string) (now : Z) (db : Session) : User.t * Session :=
  let new_user :=
    User.mk (next_user_id db) email username hashed_password full_name 1 now in
  (new_user,
   mkSession (users db ++ [new_user]) (expenses db)
     (next_user_id db + 1) (next_expense_id db)).

(** [db.commit()] after attribute assignments on a persistent row: the row
    with that primary key is rewritten. *)
Definition commit_user (user : User.t) (db : Session) : Session :=
  mkSession
    ((λ row, if decide (User.id row = User.id user) then user else row) <$> users db)
    (expenses db) (next_user_id db) (next_expense_id db).

Section auth.
Context {jose : Jose} {pwd_context : CryptContext} (settings : Settings).

Record Token : Type := mkToken {
  access_token : jwt;
  token_type : string
}.

Definition register (user_data : UserCreate.t) (salt : string) (now : Z) (db : Session)
    : result UserResponse.t * Session :=
  let existing_email :=
    first (filter (λ u, User.email u = UserCreate.email user_data) (users db)) in
  match existing_email with
  | Some _ =>
      (Raise (HTTPException HTTP_400_BAD_REQUEST "Email already registered"), db)
  | None =>
  let existing_username :=
    first (filter (λ u, User.username u = UserCreate.username user_data) (users db)) in
  match existing_username with
  | Some _ =>
      (Raise (HTTPException HTTP_400_BAD_REQUEST "Username already taken"), db)
  | None =>
  let hashed_password := get_password_hash salt (UserCreate.password user_data) in
  let '(new_user, db) :=
    add_user (UserCreate.email user_data) (UserCreate.username user_data)
      (UserCreate.full_name user_data) hashed_password now db in
  (Ok (UserResponse_from_attributes new_user), db)
  end end.

(** The user the login form designates: by username first, then by email. *)
Definition login_lookup (form_username : string) (db : Session) : option User.t :=
  let user := first (filter (λ u, User.username u = form_username) (users db)) in
  match user with
  | Some user => Some user
  | None => first (filter (λ u, User.email u = form_username) (users db))
  end.

Definition login (form_username form_password : string) (now : Z) (db : Session)
    : result Token :=
  match login_lookup form_username db with
  | None =>
      Raise (HTTPException HTTP_401_UNAUTHORIZED "Incorrect username/email or password")
  | Some user =>
      if negb (verify_password form_password (User.hashed_password user)) then
        Raise (HTTPException HTTP_401_UNAUTHORIZED "Incorrect username/email or password")
      else if User.is_active user =? 0 then
        Raise (HTTPException HTTP_400_BAD_REQUEST "Inactive user account")
      else
        let access_token_expires := minutes (ACCESS_TOKEN_EXPIRE_MINUTES settings) in
        let access_token :=
          create_access_token settings
            (<["sub" := JStr (User.username user)]> ∅)
            (Some access_token_expires) now in
        Ok (mkToken access_token "bearer")
  end.

(** The four assignments of [update_profile], each under its [if]. *)
Definition update_profile_fields (user_update : UserUpdate.t) (current_user : User.t)
    (salt : string) : User.t :=
  let email :=
    match UserUpdate.email user_update with
    | Some e => if truthy_str e then e else User.email current_user
    | None => User.email current_user
    end in
  let username :=
    match UserUpdate.username user_update with
    | Some n => if truthy_str n then n else User.username current_user
    | None => User.username current_user
    end in
  let full_name :=
    match UserUpdate.full_name user_update with
    | Some f => if truthy_str f then Some f else User.full_name current_user
    | None => User.full_name current_user
    end in
  let hashed_password :=
    match UserUpdate.password user_update with
    | Some p => if truthy_str p then get_password_hash salt p
                else User.hashed_password current_user
    | None => User.hashed_password current_user
    end in
  User.mk (User.id current_user) email username hashed_password full_name
    (User.is_active current_user) (User.created_at current_user).

(** One uniqueness check of [update_profile]:
    [if new and new != current: existing = ...first(); if existing: raise]. *)
Definition taken_by_other (new : option string) (current : string)
    (column : User.t -> string) (db : Session) : bool :=
  match new with
  | Some x =>
      if truthy_str x && negb (String.eqb x current) then
        match first (filter (λ u, column u = x) (users db)) with
        | Some _ => true
        | None => false
        end
      else false
  | None => false
  end.

Definition update_profile (user_update : UserUpdate.t) (current_user : User.t)
    (salt : string) (db : Session) : result UserResponse.t * Session :=
  if taken_by_other (UserUpdate.email user_update) (User.email current_user)
       User.email db
  then (Raise (HTTPException HTTP_400_BAD_REQUEST "Email already in use"), db)
  else
  if taken_by_other (UserUpdate.username user_update) (User.username current_user)
       User.username db
  then (Raise (HTTPException HTTP_400_BAD_REQUEST "Username already taken"), db)
  else
  let current_user := update_profile_fields user_update current_user salt in
  let db := commit_user current_user db in
  (Ok (UserResponse_from_attributes current_user), db).

Definition logout : string := "Successfully logged out".

(** [cascade="all, delete-orphan"]: the user's expenses go with the row. *)
Definition delete_account (current_user : User.t) (db : Session) : string * Session :=
  ("Account deleted successfully",
   mkSession
     (filter (λ u, User.id u <> User.id current_user) (users db))
     (filter (λ e, Expense.user_id e <> User.id current_user) (expenses db))
     (next_user_id db) (next_expense_id db)).

End auth.

(** ** app/routers/expense.py *)

Definition expense_not_found : exn :=
  HTTPException HTTP_404_NOT_FOUND "Expense not found".

(** The lookup shared by [get_expense], [update_expense], [delete_expense]. *)
Definition owned_expense (expense_id : Z) (current_user : User.t) (db : Session)
    : option Expense.t :=
  first (filter (λ e, Expense.id e = expense_id /\ Expense.user_id e = User.id current_user)
           (expenses db)).

(** A [None] date takes the column default [datetime.utcnow] on insert. *)
Definition create_expense (expense_data : ExpenseCreate.t) (current_user : User.t)
    (now : Z) (db : Session) : Expense.t * Session :=
  let new_expense :=
    Expense.mk (next_expense_id db)
      (ExpenseCreate.title expense_data) (ExpenseCreate.amount expense_data)
      (ExpenseCreate.category expense_data) (ExpenseCreate.description expense_data)
      (Some (default now (ExpenseCreate.date expense_data)))
      now now (User.id current_user) None None in
  (new_expense,
   mkSession (users db) (expenses db ++ [new_expense])
     (next_user_id db) (next_expense_id db + 1)).

Definition get_expenses (skip limit : nat) (category : option ExpenseCategory)
    (start_date end_date : option Z) (current_user : User.t) (db : Session)
    : list Expense.t :=
  let query := filter (λ e, Expense.user_id e = User.id current_user) (expenses db) in
  let query := filter_if category (λ c e, category_is e c) query in
  let query := filter_if start_date (λ d e, date_ge e d) query in
  let query := filter_if end_date (λ d e, date_le e d) query in
  take limit (drop skip (order_by_date_desc query)).

Definition get_expense (expense_id : Z) (current_user : User.t) (db : Session)
    : result Expense.t :=
  match owned_expense expense_id current_user db with
  | None => Raise expense_not_found
  | Some expense => Ok expense
  end.

(** [setattr(expense, field, value)] on a [nullable=False] column and on a
    nullable one; the first yields [None] when it stores NULL. *)
Definition set_required {A} (current : A) (value : option (option A)) : option A :=
  match value with
  | None => Some current
  | Some v => v
  end.

Definition set_nullable {A} (current : option A) (value : option (option A)) : option A :=
  match value with
  | None => current
  | Some v => v
  end.

(** The assignments of [update_expense] followed by the flush: a NULL in a
    [nullable=False] column makes the UPDATE fail. *)
Definition setattrs (expense : Expense.t) (expense_update : ExpenseUpdate.t) (now : Z)
    : result Expense.t :=
  match set_required (Expense.title expense) (ExpenseUpdate.title expense_update),
        set_required (Expense.amount expense) (ExpenseUpdate.amount expense_update),
        set_required (Expense.category expense) (ExpenseUpdate.category expense_update)
  with
  | Some title, Some amount, Some category =>
      Ok (Expense.mk (Expense.id expense) title amount category
            (set_nullable (Expense.description expense)
               (ExpenseUpdate.description expense_update))
            (set_nullable (Expense.date expense) (ExpenseUpdate.date expense_update))
            (Expense.created_at expense) now (Expense.user_id expense)
            (Expense.ai_confidence expense) (Expense.ai_suggested_category expense))
  | _, _, _ => Raise IntegrityError
  end.

Definition commit_expense (expense : Expense.t) (db : Session) : Session :=
  mkSession (users db)
    ((λ row, if decide (Expense.id row = Expense.id expense) then expense else row)
       <$> expenses db)
    (next_user_id db) (next_expense_id db).

Definition update_expense (expense_id : Z) (expense_update : ExpenseUpdate.t)
    (current_user : User.t) (now : Z) (db : Session) : result Expense.t * Session :=
  match owned_expense expense_id current_user db with
  | None => (Raise expense_not_found, db)
  | Some expense =>
      match setattrs expense expense_update now with
      | Ok expense => (Ok expense, commit_expense expense db)
      | Raise e => (Raise e, db)
      end
  end.

Definition delete_expense (expense_id : Z) (current_user : User.t) (db : Session)
    : result string * Session :=
  match owned_expense expense_id current_user db with
  | None => (Raise expense_not_found, db)
  | Some expense =>
      (Ok "Expense deleted successfully",
       mkSession (users db)
         (filter (λ e, Expense.id e <> Expense.id expense) (expenses db))
         (next_user_id db) (next_expense_id db))
  end.

Definition get_week_expenses (current_user : User.t) (now : Z) (db : Session)
    : list Expense.t :=
  let week_ago := now - days 7 in
  order_by_date_desc
    (filter (λ e, Expense.user_id e = User.id current_user /\ date_ge e week_ago)
       (expenses db)).

Definition get_month_expenses (current_user : User.t) (now : Z) (db : Session)
    : list Expense.t :=
  let month_ago := now - days 30 in
  order_by_date_desc
    (filter (λ e, Expense.user_id e = User.id current_user /\ date_ge e month_ago)
       (expenses db)).

(** *** Statistics *)

(** The conversion Python applies to the [int] operand of [total / count]. *)
Definition float_of_nat (n : nat) : float :=
  PrimFloat.of_uint63 (Uint63.of_Z (Z.of_nat n)).

(** [sum(xs)]: the addends are added left to right, starting from 0.  (From
    CPython 3.12 on, [sum] carries a compensation term over float addends;
    every total evaluated below is the same under both.) *)
Definition py_sum (xs : list float) : float :=
  fold_left PrimFloat.add xs 0%float.

(** One iteration of the grouping loop. *)
Definition by_category_step (by_category : gmap string float) (expense : Expense.t)
    : gmap string float :=
  let category := category_value (Expense.category expense) in
  let by_category :=
    match by_category !! category with
    | None => <[category := 0%float]> by_category
    | Some _ => by_category
    end in
  <[category := (default 0 (by_category !! category) + Expense.amount expense)%float]>
    by_category.

Definition statistics_of (expenses : list Expense.t) : ExpenseStatistics.t :=
  match expenses with
  | [] => ExpenseStatistics.mk 0%float 0 0%float ∅
  | _ =>
      let total := py_sum (Expense.amount <$> expenses) in
      let count := length expenses in
      let by_category := fold_left by_category_step expenses ∅ in
      ExpenseStatistics.mk total count
        (if decide (0 < count)%nat then (total / float_of_nat count)%float else 0%float)
        by_category
  end.

(** The rows the statistics query selects. *)
Definition statistics_query (start_date end_date : option Z)
    (current_user : User.t) (db : Session) : list Expense.t :=
  let query := filter (λ e, Expense.user_id e = User.id current_user) (expenses db) in
  let query := filter_if start_date (λ d e, date_ge e d) query in
  let query := filter_if end_date (λ d e, date_le e d) query in
  query.

Definition get_expense_statistics (start_date end_date : option Z)
    (current_user : User.t) (db : Session) : ExpenseStatistics.t :=
  statistics_of (statistics_query start_date end_date current_user db).

(** ** Routers and app/main.py *)

Record APIRoute : Type := mkRoute {
  route_method : string;
  route_path : string;
  route_endpoint : string;
  route_status_code : Z
}.

Record APIRouter : Type := mkRouter {
  prefix : string;
  routes : list APIRoute
}.

Definition auth_router : APIRouter :=
  mkRouter "/api/auth"
    [ mkRoute "POST" "/register" "register" HTTP_201_CREATED;
      mkRoute "POST" "/login" "login" 200;
      mkRoute "GET" "/me" "get_current_user_profile" 200;
      mkRoute "PUT" "/me" "update_profile" 200;
      mkRoute "POST" "/logout" "logout" 200;
      mkRoute "DELETE" "/me" "delete_account" 200 ].

Definition expense_router : APIRouter :=
  mkRouter "/api/expenses"
    [ mkRoute "POST" "/" "create_expense" HTTP_201_CREATED;
      mkRoute "GET" "/" "get_expenses" 200;
      mkRoute "GET" "/statistics" "get_expense_statistics" 200;
      mkRoute "GET" "/{expense_id}" "get_expense" 200;
      mkRoute "PUT" "/{expense_id}" "update_expense" 200;
      mkRoute "DELETE" "/{expense_id}" "delete_expense" 200;
      mkRoute "GET" "/recent/week" "get_week_expenses" 200;
      mkRoute "GET" "/recent/month" "get_month_expenses" 200 ].

(** [app.include_router(router)]: the router's routes, each under the
    router's prefix, are appended to the application's. *)
Definition include_router (app : list APIRoute) (router : APIRouter) : list APIRoute :=
  app ++ ((λ r, mkRoute (route_method r) (prefix router ++ route_path r)
                  (route_endpoint r) (route_status_code r)) <$> routes router).

(** The application of main.py: the one router it includes, then the two
    routes it declares itself.  FastAPI's own documentation routes and the
    [/static] mount, none of them under [/api/expenses], are left out. *)
Definition app : list APIRoute :=
  include_router [] auth_router
    ++ [ mkRoute "GET" "/" "root" 200; mkRoute "GET" "/health" "health_check" 200 ].

(** Routing.  A path is cut at its slashes; a segment [{name}] of a route
    matches any non-empty segment of the request, any other segment matches
    itself; the request is served by the first route whose method and path
    both match, and by none (the framework's 404 or 405) otherwise. *)
Fixpoint segments (path : string) : list string :=
  match path with
  | EmptyString => [EmptyString]
  | String c rest =>
      if Ascii.eqb c "/" then EmptyString :: segments rest
      else match segments rest with
           | seg :: more => String c seg :: more
           | [] => [String c EmptyString]
           end
  end.

Definition segment_matches (template seg : string) : bool :=
  match template with
  | String "{" _ => negb (String.eqb seg "")
  | _ => String.eqb template seg
  end.

Fixpoint segments_match (templates segs : list string) : bool :=
  match templates, segs with
  | [], [] => true
  | t :: templates, s :: segs => segment_matches t s && segments_match templates segs
  | _, _ => false
  end.

Definition route_matches (method path : string) (r : APIRoute) : bool :=
  String.eqb (route_method r) method
  && segments_match (segments (route_path r)) (segments path).

Definition resolve (app : list APIRoute) (method path : string) : option APIRoute :=
  List.find (route_matches method path) app.

(** The endpoint serving the request [method path], if there is one. *)
Definition endpoint_of (app : list APIRoute) (method path : string) : option string :=
  route_endpoint <$> resolve app method path.

(** The Expense Ledger endpoints the specification lists, and a request
    for each of them, with the handler that should serve it. *)
Definition expense_ledger_endpoints : list (string * string) :=
  [ ("POST", "/api/expenses/"); ("GET", "/api/expenses/");
    ("GET", "/api/expenses/statistics"); ("GET", "/api/expenses/{expense_id}");
    ("PUT", "/api/expenses/{expense_id}"); ("DELETE", "/api/expenses/{expense_id}");
    ("GET", "/api/expenses/recent/week"); ("GET", "/api/expenses/recent/month") ].

Definition expense_ledger_requests : list (string * string * string) :=
  [ ("POST", "/api/expenses/", "create_expense");
    ("GET", "/api/expenses/", "get_expenses");
    ("GET", "/api/expenses/statistics", "get_expense_statistics");
    ("GET", "/api/expenses/42", "get_expense");
    ("PUT", "/api/expenses/42", "update_expense");
    ("DELETE", "/api/expenses/42", "delete_expense");
    ("GET", "/api/expenses/recent/week", "get_week_expenses");
    ("GET", "/api/expenses/recent/month", "get_month_expenses") ].

(** ** The specification's side

    Definitions that follow the words of the specification, to state the
    claims against the code. *)


Definition categories_of (rows : list Expense.t) : gset string :=
  list_to_set ((λ e, category_value (Expense.category e)) <$> rows).


(** The amounts of the rows of category [c], in row order. *)
Definition amounts_in (c : string) (rows : list Expense.t) : list float :=
  Expense.amount <$> filter (λ e, category_value (Expense.category e) = c) rows.









(** [list(owner, filters)] in the words of the specification: the owner's
    expenses that pass every filter given, newest expense date first,
    before any pagination. *)
Definition passes (category : option ExpenseCategory) (start_date end_date : option Z)
    (e : Expense.t) : Prop :=
  match category with Some c => Expense.category e = c | None => True end /\
  match start_date with Some d => date_ge e d | None => True end /\
  match end_date with Some d => date_le e d | None => True end.

#[global] Instance passes_dec category start_date end_date e :
  Decision (passes category start_date end_date e).
Proof. unfold passes. destruct category, start_date, end_date; apply _. Defined.

Definition spec_list (owner : User.t) (category : option ExpenseCategory)
    (start_date end_date : option Z) (db : Session) : list Expense.t :=
  order_by_date_desc
    (filter (λ e, Expense.user_id e = User.id owner /\
                  passes category start_date end_date e) (expenses db)).

(** [e1] may stand before [e2] in a listing by date, newest first. *)
Definition not_older (e1 e2 : Expense.t) : Prop :=
  date_geb (Expense.date e1) (Expense.date e2) = true.

(** The grouping loop of the statistics over any number type: what
    [by_category_step] does with binary64 addition, done with [add] from
    [zero]; and the sum of the values of the resulting mapping. *)
Section grouping.
Context {A : Type} (zero : A) (add : A -> A -> A).

Definition group_step (by_category : gmap string A) (category : string) (amount : A)
    : gmap string A :=
  let by_category :=
    match by_category !! category with
    | None => <[category := zero]> by_category
    | Some _ => by_category
    end in
  <[category := add (default zero (by_category !! category)) amount]> by_category.

Definition group_all (rows : list (string * A)) : gmap string A :=
  fold_left (λ m row, group_step m row.1 row.2) rows ∅.

Definition sum_map (m : gmap string A) : A :=
  map_fold (λ _ v acc, add acc v) zero m.

End grouping.

(** ** Reference instances and example data

    They obey the contracts above and compute, so the handlers can be run
    on concrete requests.  A reference token is the payload next to the key
    and algorithm that signed it; a reference hash is one salt character
    followed by the password. *)

Definition ref_decode (token : gmap string json * (string * string))
    (key alg : string) (now : Z) : option (gmap string json) :=
  if decide (token.2 = (key, alg)) then
    match token.1 !! "exp" with
    | Some (JNum exp) => if exp <? now then None else Some token.1
    | Some _ => None
    | None => Some token.1
    end
  else None.

Lemma ref_decode_encode (c : gmap string json) (sub : string) (exp : Z)
    (key alg : string) (now : Z) :
  c !! "sub" = Some (JStr sub) ->
  c !! "exp" = Some (JNum exp) ->
  dom c ⊆ {[ "sub"; "type"; "exp" ]} ->
  ref_decode (c, (key, alg)) key alg now = if exp <? now then None else Some c.
Proof.
  intros _ Hexp _. unfold ref_decode. cbn [fst snd].
  rewrite decide_True by done. now rewrite Hexp.
Qed.

Definition ref_jose : Jose :=
  {| jwt := gmap string json * (string * string);
     jwt_encode c key alg := (c, (key, alg));
     jwt_decode := ref_decode;
     jwt_decode_encode := ref_decode_encode |}.

Definition ref_hash (salt password : string) : string :=
  match salt with
  | String c _ => String c password
  | EmptyString => String "."%char password
  end.

Definition ref_verify (password hashed : string) : bool :=
  match hashed with
  | String _ rest => String.eqb password rest
  | EmptyString => false
  end.

Lemma ref_verify_hash (salt password : string) :
  ref_verify password (ref_hash salt password) = true.
Proof. destruct salt; apply String.eqb_refl. Qed.

Definition ref_pwd_context : CryptContext :=
  {| pwd_hash := ref_hash; pwd_verify := ref_verify; pwd_verify_hash := ref_verify_hash |}.

Definition default_settings : Settings := load_settings (mkEnviron None None None).

(** The worked example of the specification: three expenses of one user,
    and one of somebody else. *)
Definition example_user : User.t :=
  User.mk 1 "ann@example.com" "ann" "$2b$12$hash" None 1 0.
Definition example_expense (id : Z) (title : string) (amount : float)
    (category : ExpenseCategory) (day owner : Z) : Expense.t :=
  Expense.mk id title amount category None (Some (day * 86400)) 0 0 owner None None.
Definition example_db : Session :=
  mkSession [example_user]
    [ example_expense 1 "A" 10 FOOD 1 1;
      example_expense 2 "B" 20 FOOD 2 1;
      example_expense 3 "other user" 99 FOOD 2 2;
      example_expense 4 "C" 5 TRANSPORT 3 1 ]
    2 5.





(** A profile patch that carries only a new password. *)
Definition password_patch : UserUpdate.t :=
  UserUpdate.mk None None None (Some "hunter22").

(** A PUT body that sets only the amount, and one that sets the title to
    [null]. *)
Definition amount_patch : ExpenseUpdate.t :=
  ExpenseUpdate.mk None (Some (Some 12.5%float)) None None None.
Definition null_title_patch : ExpenseUpdate.t :=
  ExpenseUpdate.mk (Some None) None None None None.

(** A fresh session, and the session after ann has registered. *)
Definition empty_db : Session := mkSession [] [] 1 1.

Definition ann : UserCreate.t :=
  UserCreate.mk "ann@example.com" "ann" (Some "Ann Lee") "secret1".

Definition ann_db : Session :=
  (@register ref_pwd_context ann "s" 100 empty_db).2.


(** ** Constraints of the schema

    What models.py declares on the two tables: [primary_key] on the ids,
    [unique=True] on [email] and [username], [ForeignKey("users.id")] on
    [Expense.user_id]; and, for the auto-increment counters, that every id in
    use lies below the next one handed out. *)
Definition users_constraints (db : Session) : Prop :=
  NoDup (User.id <$> users db) /\
  NoDup (User.email <$> users db) /\
  NoDup (User.username <$> users db) /\
  Forall (λ u, User.id u < next_user_id db) (users db).

Definition expenses_constraints (db : Session) : Prop :=
  NoDup (Expense.id <$> expenses db) /\
  Forall (λ e, Expense.id e < next_expense_id db) (expenses db) /\
  Forall (λ e, Expense.user_id e ∈ User.id <$> users db) (expenses db).

Definition constraints (db : Session) : Prop :=
  users_constraints db /\ expenses_constraints db.

#[global] Instance constraints_dec db : Decision (constraints db).
Proof. unfold constraints, users_constraints, expenses_constraints. apply _. Defined.

(** The expenses of one user, in table order: what every query of the
    expense router starts from. *)
Definition owned_by (user : User.t) (db : Session) : list Expense.t :=
  filter (λ e, Expense.user_id e = User.id user) (expenses db).

(** A session with two users and three expenses, built by the handlers. *)
Definition bob : UserCreate.t :=
  UserCreate.mk "bob@example.com" "bob" None "secret2".

Definition ann_row : User.t :=
  User.mk 1 "ann@example.com" "ann" "ssecret1" (Some "Ann Lee") 1 100.
Definition bob_row : User.t :=
  User.mk 2 "bob@example.com" "bob" "tsecret2" None 1 200.

Definition bob_db : Session :=
  (@register ref_pwd_context bob "t" 200 ann_db).2.

Definition lunch : ExpenseCreate.t :=
  ExpenseCreate.mk "lunch" 5.4 FOOD None (Some 1000).
Definition bus : ExpenseCreate.t :=
  ExpenseCreate.mk "bus" 2.45 TRANSPORT (Some "line 4") (Some 2000).
Definition dinner : ExpenseCreate.t :=
  ExpenseCreate.mk "dinner" 12.5 FOOD None None.

Definition ledger_db : Session :=
  (create_expense dinner ann_row 3000
     (create_expense bus bob_row 2500
        (create_expense lunch ann_row 1500 bob_db).2).2).2.

(** bob's access token, issued at time 2600, and the patch that renames him. *)
Definition bob_token : @jwt ref_jose :=
  @create_access_token ref_jose default_settings (<["sub" := JStr "bob"]> ∅) None 2600.

Definition rename_patch : UserUpdate.t :=
  UserUpdate.mk None (Some "robert") None None.

(** A patch that changes bob's password only, and the session after it. *)
Definition new_password_patch : UserUpdate.t :=
  UserUpdate.mk None None None (Some "correct horse").
(** * Theorems *)

(** Split a conjunction of facts into its conjuncts, leaving equivalences
    whole. *)
Ltac split_facts := repeat match goal with |- _ /\ _ => split end.


(** ** Queries *)

Section queries.
Context {A : Type} (P : A -> Prop) `{forall x, Decision (P x)}.

Lemma first_filter_None (rows : list A) :
  first (filter P rows) = None <-> forall x, x ∈ rows -> ~ P x.
Proof.
  unfold first. rewrite head_None. split.
  - intros Hnil x Hx HP. eapply filter_nil_not_elem_of; eassumption.
  - intros Hnone. destruct (filter P rows) as [|x l] eqn:Hf; [done|]. exfalso.
    assert (Hx : x ∈ filter P rows) by (rewrite Hf; left).
    apply list_elem_of_filter in Hx as [HP Hx]. now apply (Hnone x).
Qed.

Lemma first_filter_Some (rows : list A) (x : A) :
  first (filter P rows) = Some x -> x ∈ rows /\ P x.
Proof.
  unfold first. intros Hx. apply head_Some_elem_of in Hx.
  apply list_elem_of_filter in Hx. tauto.
Qed.

End queries.

(** ** Statistics *)

Lemma by_category_step_lookup (m : gmap string float) (e : Expense.t) (c : string) :
  by_category_step m e !! c =
    if decide (category_value (Expense.category e) = c)
    then Some (default 0 (m !! c) + Expense.amount e)%float
    else m !! c.
Proof.
  unfold by_category_step.
  destruct (decide (category_value (Expense.category e) = c)) as [<-|Hne].
  - rewrite lookup_insert_eq.
    destruct (m !! category_value (Expense.category e)) eqn:Hm.
    + now rewrite Hm.
    + now rewrite lookup_insert_eq.
  - rewrite lookup_insert_ne by done.
    destruct (m !! category_value (Expense.category e)); [done|].
    now rewrite lookup_insert_ne.
Qed.

Lemma by_category_fold_lookup (rows : list Expense.t) (m : gmap string float) (c : string) :
  fold_left by_category_step rows m !! c =
    match amounts_in c rows with
    | [] => m !! c
    | xs => Some (fold_left PrimFloat.add xs (default 0%float (m !! c)))
    end.
Proof.
  revert m. induction rows as [|e rows IH]; intros m; [done|].
  cbn [fold_left]. rewrite IH, by_category_step_lookup.
  unfold amounts_in. rewrite filter_cons.
  destruct (decide (category_value (Expense.category e) = c)) as [Heq|Hne].
  - rewrite fmap_cons. cbn [fold_left default].
    now destruct (Expense.amount <$> filter _ rows).
  - done.
Qed.

Lemma statistics_of_by_category (rows : list Expense.t) (c : string) :
  ExpenseStatistics.by_category (statistics_of rows) !! c =
    match amounts_in c rows with
    | [] => None
    | xs => Some (py_sum xs)
    end.
Proof.
  destruct rows as [|e rows]; [done|].
  unfold statistics_of. cbn [ExpenseStatistics.by_category].
  rewrite by_category_fold_lookup. now rewrite lookup_empty.
Qed.

Lemma elem_of_statistics_query start_date end_date current_user db e :
  e ∈ statistics_query start_date end_date current_user db <->
    e ∈ expenses db /\ Expense.user_id e = User.id current_user /\
    (forall d, start_date = Some d -> date_ge e d) /\
    (forall d, end_date = Some d -> date_le e d).
Proof.
  unfold statistics_query, filter_if.
  destruct start_date as [s|], end_date as [t|];
    rewrite ?list_elem_of_filter;
    (split; [intros; repeat split; intros; simplify_eq; tauto|]);
    intros (? & ? & Hs & Ht); repeat split; auto.
Qed.

(** C2. Statistics are computed over the owner's expenses inside the optional
    date range: [total_expenses] is the sum of their amounts, [expense_count]
    their number, [average_expense] is total / count when there is one at
    least, and [by_category] maps each category that occurs to the sum of its
    amounts; with no matching expense the result is all zeros with an empty
    mapping.  On the example A($10, food), B($20, food), C($5, transport) the
    result is total 35, count 3, average 35/3 = 11.666666666666666 and
    by_category {food: 30, transport: 5}. *)
Theorem C2_statistics_spec :
  (forall start_date end_date current_user db,
     let rows := statistics_query start_date end_date current_user db in
     let s := get_expense_statistics start_date end_date current_user db in
     (forall e, e ∈ rows <->
        e ∈ expenses db /\ Expense.user_id e = User.id current_user /\
        (forall d, start_date = Some d -> date_ge e d) /\
        (forall d, end_date = Some d -> date_le e d)) /\
     ExpenseStatistics.total_expenses s = py_sum (Expense.amount <$> rows) /\
     ExpenseStatistics.expense_count s = length rows /\
     ((0 < length rows)%nat ->
        ExpenseStatistics.average_expense s =
          (ExpenseStatistics.total_expenses s
             / float_of_nat (ExpenseStatistics.expense_count s))%float) /\
     (forall c, ExpenseStatistics.by_category s !! c =
        match amounts_in c rows with [] => None | xs => Some (py_sum xs) end) /\
     (rows = [] -> s = ExpenseStatistics.mk 0%float 0 0%float ∅ /\
        PrimFloat.is_nan (ExpenseStatistics.average_expense s) = false)) /\
  get_expense_statistics None None example_user example_db =
    ExpenseStatistics.mk 35%float 3 (35 / 3)%float
      (<["food" := 30%float]> (<["transport" := 5%float]> ∅)) /\
  (35 / 3)%float = 0x1.7555555555555p+3%float (* 11.666666666666666 *).
Proof.
  split; [|split; [vm_compute; reflexivity | reflexivity]].
  intros start_date end_date current_user db rows s.
  split; [intros e; apply elem_of_statistics_query|].
  subst s. unfold get_expense_statistics. fold rows.
  split; [now destruct rows|]. split; [now destruct rows|].
  split.
  { intros Hpos. destruct rows as [|e rows']; [simpl in Hpos; lia|].
    unfold statistics_of. cbn [ExpenseStatistics.average_expense
      ExpenseStatistics.total_expenses ExpenseStatistics.expense_count].
    now destruct (decide _) as [|[]]. }
  split; [intros c; apply statistics_of_by_category|].
  intros ->. now split.
Qed.


Lemma amounts_in_nil_iff (c : string) (rows : list Expense.t) :
  amounts_in c rows = [] <-> c ∉ categories_of rows.
Proof.
  unfold amounts_in, categories_of.
  rewrite elem_of_list_to_set, list_elem_of_fmap. split.
  - intros Hnil (e & -> & He). apply fmap_nil_inv in Hnil.
    now apply (filter_nil_not_elem_of _ _ e) in Hnil.
  - intros Hnone.
    destruct (filter _ rows) as [|e l] eqn:Hf; [done|]. exfalso.
    assert (He : e ∈ filter (λ e, category_value (Expense.category e) = c) rows)
      by (rewrite Hf; left).
    apply list_elem_of_filter in He as [Hc He]. apply Hnone. eauto.
Qed.

Lemma statistics_of_dom (rows : list Expense.t) :
  dom (ExpenseStatistics.by_category (statistics_of rows)) = categories_of rows.
Proof.
  apply set_eq. intros c.
  rewrite elem_of_dom, statistics_of_by_category.
  destruct (amounts_in c rows) as [|x xs] eqn:Hc.
  - apply amounts_in_nil_iff in Hc. split; [intros [? ?]; discriminate | done].
  - split; [intros _ | eauto].
    destruct (decide (c ∈ categories_of rows)) as [|Hn]; [done|].
    apply amounts_in_nil_iff in Hn. congruence.
Qed.

(** *** Statistics without rounding *)


















(** ** Token service *)

(** The side conditions of [decode_issued] on a literal payload. *)
Ltac issued_payload :=
  first
    [ apply lookup_insert_eq
    | rewrite ?dom_insert_L, ?dom_empty_L; intros k;
      rewrite ?elem_of_union, ?elem_of_singleton, ?elem_of_empty; tauto ].

Section security_facts.
Context {jose : Jose} {pwd_context : CryptContext} (settings : Settings).

Lemma create_access_token_payload (data : gmap string json) (delta issued : Z) :
  create_access_token settings data (Some delta) issued =
    jwt_encode
      (<["exp" := JNum (issued + (if delta =? 0
                                  then minutes (ACCESS_TOKEN_EXPIRE_MINUTES settings)
                                  else delta))]> data)
      (SECRET_KEY settings) (ALGORITHM settings).
Proof. unfold create_access_token. now destruct (delta =? 0). Qed.

(** Decoding a token this service issued for a string subject. *)
Lemma decode_issued (data : gmap string json) (sub : string) (exp now : Z) :
  data !! "sub" = Some (JStr sub) ->
  dom data ⊆ {[ "sub"; "type" ]} ->
  jwt_decode
    (jwt_encode (<["exp" := JNum exp]> data) (SECRET_KEY settings) (ALGORITHM settings))
    (SECRET_KEY settings) (ALGORITHM settings) now =
    if exp <? now then None else Some (<["exp" := JNum exp]> data).
Proof.
  intros Hsub Hdom. apply (jwt_decode_encode _ sub exp).
  - now rewrite lookup_insert_ne.
  - apply lookup_insert_eq.
  - rewrite dom_insert_L. intros k.
    rewrite !elem_of_union, !elem_of_singleton. intros [->|Hk]; [tauto|].
    apply Hdom in Hk. rewrite !elem_of_union, !elem_of_singleton in Hk. tauto.
Qed.

(** C8. [verify_reset_token] never raises; it returns a subject exactly when
    the token decodes (signature and expiry valid) and its [type] claim is
    "password_reset", and none otherwise.  A token issued by
    [create_reset_password_token email] verifies to that email until its
    one hour has elapsed, and an access token for a username, which has no
    [type] claim, yields none. *)
Theorem C8_verify_reset_token :
  (forall token now, exists r, verify_reset_token settings token now = Ok r) /\
  (forall token now v,
     verify_reset_token settings token now = Ok (Some v) <->
     exists payload,
       jwt_decode token (SECRET_KEY settings) (ALGORITHM settings) now = Some payload /\
       payload !! "type" = Some (JStr "password_reset") /\
       payload !! "sub" = Some v) /\
  (forall token now,
     (jwt_decode token (SECRET_KEY settings) (ALGORITHM settings) now = None \/
      exists payload,
        jwt_decode token (SECRET_KEY settings) (ALGORITHM settings) now = Some payload /\
        payload !! "type" <> Some (JStr "password_reset")) ->
     verify_reset_token settings token now = Ok None) /\
  (forall email issued now,
     verify_reset_token settings (create_reset_password_token settings email issued) now =
       Ok (if issued + 3600 <? now then None else Some (JStr email))) /\
  (forall username expires_delta issued now,
     verify_reset_token settings
       (create_access_token settings (<["sub" := JStr username]> ∅) expires_delta issued)
       now = Ok None).
Proof.
  split_facts.
  - intros token now. unfold verify_reset_token.
    destruct (jwt_decode _ _ _ _); [destruct (decide _)|]; eauto.
  - intros token now v. unfold verify_reset_token. split.
    + destruct (jwt_decode _ _ _ _) as [payload|]; [|discriminate].
      destruct (decide _) as [|Htype]; [discriminate|].
      intros [= Hsub]. exists payload. repeat split; [|done].
      now destruct (decide (payload !! "type" = Some (JStr "password_reset"))).
    + intros (payload & -> & Htype & Hsub).
      rewrite decide_False by (intros Hne; now apply Hne). now rewrite Hsub.
  - intros token now [Hdec | (payload & Hdec & Htype)];
      unfold verify_reset_token; rewrite Hdec; [done|].
    now rewrite decide_True.
  - intros email issued now. unfold verify_reset_token, create_reset_password_token.
    rewrite create_access_token_payload. change (hours 1 =? 0) with false. cbv iota.
    rewrite (decode_issued _ email) by issued_payload.
    change (hours 1) with 3600.
    destruct (issued + 3600 <? now); [done|].
    rewrite decide_False by (intros Hne; now apply Hne). done.
  - intros username expires_delta issued now. unfold verify_reset_token.
    assert (Hpayload : exists exp,
      create_access_token settings (<["sub" := JStr username]> ∅) expires_delta issued =
        jwt_encode (<["exp" := JNum exp]> (<["sub" := JStr username]> ∅))
          (SECRET_KEY settings) (ALGORITHM settings)).
    { unfold create_access_token. destruct expires_delta as [d|]; [destruct (d =? 0)|]; eauto. }
    destruct Hpayload as [exp ->].
    rewrite (decode_issued _ username) by issued_payload.
    destruct (exp <? now); [done|].
    now rewrite decide_True.
Qed.

End security_facts.

(** ** User registry *)

Section auth_facts.
Context {jose : Jose} {pwd_context : CryptContext} (settings : Settings).

Lemma login_lookup_None (form_username : string) (db : Session) :
  login_lookup form_username db = None <->
  forall u, u ∈ users db ->
    User.username u <> form_username /\ User.email u <> form_username.
Proof.
  unfold login_lookup.
  destruct (first (filter (λ u, User.username u = form_username) (users db)))
    as [u|] eqn:Hname.
  - apply first_filter_Some in Hname as [Hu Heq]. split; [discriminate|].
    intros Hall. now destruct (Hall u Hu).
  - rewrite first_filter_None in Hname. rewrite first_filter_None. split.
    + intros Hemail u Hu. split; [now apply Hname | now apply Hemail].
    + intros Hall u Hu. now apply Hall.
Qed.

(** The payload [login] signs for [user] at time [now]. *)
Lemma login_token_payload (user : User.t) (now : Z) :
  create_access_token settings (<["sub" := JStr (User.username user)]> ∅)
    (Some (minutes (ACCESS_TOKEN_EXPIRE_MINUTES settings))) now =
  jwt_encode
    (<["exp" := JNum (now + 60 * ACCESS_TOKEN_EXPIRE_MINUTES settings)]>
       (<["sub" := JStr (User.username user)]> ∅))
    (SECRET_KEY settings) (ALGORITHM settings).
Proof.
  rewrite create_access_token_payload. unfold minutes.
  now destruct (60 * ACCESS_TOKEN_EXPIRE_MINUTES settings =? 0).
Qed.

Lemma login_unfold (form_username form_password : string) (now : Z) (db : Session) :
  login settings form_username form_password now db =
    match login_lookup form_username db with
    | None => Raise (HTTPException 401 "Incorrect username/email or password")
    | Some user =>
        if negb (verify_password form_password (User.hashed_password user)) then
          Raise (HTTPException 401 "Incorrect username/email or password")
        else if User.is_active user =? 0 then
          Raise (HTTPException 400 "Inactive user account")
        else
          Ok (mkToken
                (jwt_encode
                   (<["exp" := JNum (now + 60 * ACCESS_TOKEN_EXPIRE_MINUTES settings)]>
                      (<["sub" := JStr (User.username user)]> ∅))
                   (SECRET_KEY settings) (ALGORITHM settings))
                "bearer")
    end.
Proof.
  unfold login. destruct (login_lookup form_username db) as [u|]; [|done].
  cbv zeta. now rewrite login_token_payload.
Qed.

(** C4. [login] looks the identifier up as a username first and as an email
    only when no username matches.  It raises 401 when no user matches or
    the password does not verify, 400 when the matched user verifies but is
    inactive, and otherwise returns a bearer token signed over the payload
    [{sub: username of the matched user, exp: now + 60 * minutes}], where
    [minutes] is the configured [ACCESS_TOKEN_EXPIRE_MINUTES], 30 when the
    environment does not set it.  The token verifies to that username until
    it expires, and two identifiers that designate the same user (her
    username, her email) give the same outcome. *)
Theorem C4_login (form_username form_password : string) (now : Z) (db : Session) :
  let unauthorized :=
    HTTPException 401 "Incorrect username/email or password" in
  let token_for (user : User.t) :=
    mkToken
      (jwt_encode
         (<["exp" := JNum (now + 60 * ACCESS_TOKEN_EXPIRE_MINUTES settings)]>
            (<["sub" := JStr (User.username user)]> ∅))
         (SECRET_KEY settings) (ALGORITHM settings))
      "bearer" in
  (forall u, first (filter (λ u, User.username u = form_username) (users db)) = Some u ->
     login_lookup form_username db = Some u) /\
  (first (filter (λ u, User.username u = form_username) (users db)) = None ->
     login_lookup form_username db =
       first (filter (λ u, User.email u = form_username) (users db))) /\
  (login_lookup form_username db = None <->
     forall u, u ∈ users db ->
       User.username u <> form_username /\ User.email u <> form_username) /\
  (login settings form_username form_password now db = Raise unauthorized <->
     login_lookup form_username db = None \/
     exists u, login_lookup form_username db = Some u /\
       verify_password form_password (User.hashed_password u) = false) /\
  (login settings form_username form_password now db =
     Raise (HTTPException 400 "Inactive user account") <->
     exists u, login_lookup form_username db = Some u /\
       verify_password form_password (User.hashed_password u) = true /\
       User.is_active u = 0) /\
  (forall token, login settings form_username form_password now db = Ok token <->
     exists u, login_lookup form_username db = Some u /\
       verify_password form_password (User.hashed_password u) = true /\
       User.is_active u <> 0 /\ token = token_for u) /\
  (forall u t, login_lookup form_username db = Some u ->
     verify_token settings (access_token (token_for u)) credentials_exception t =
       if now + 60 * ACCESS_TOKEN_EXPIRE_MINUTES settings <? t
       then Raise credentials_exception
       else Ok (JStr (User.username u))) /\
  (forall other, login_lookup other db = login_lookup form_username db ->
     login settings other form_password now db =
       login settings form_username form_password now db) /\
  (forall env, ACCESS_TOKEN_EXPIRE_MINUTES (load_settings env) =
     default 30 (env_ACCESS_TOKEN_EXPIRE_MINUTES env)).
Proof.
  intros unauthorized token_for. split_facts.
  - intros u Hu. unfold login_lookup. now rewrite Hu.
  - intros Hnone. unfold login_lookup. now rewrite Hnone.
  - apply login_lookup_None.
  - rewrite login_unfold. destruct (login_lookup form_username db) as [u|]; [|by intuition].
    destruct (verify_password form_password (User.hashed_password u)) eqn:Hpw; cbn [negb].
    + destruct (User.is_active u =? 0); split;
        try discriminate; intros [|(u' & [= <-] & Hf)]; congruence.
    + split; [intros _; right; eauto | done].
  - rewrite login_unfold. destruct (login_lookup form_username db) as [u|].
    + destruct (verify_password form_password (User.hashed_password u)) eqn:Hpw; cbn [negb].
      * destruct (User.is_active u =? 0) eqn:Hact; split.
        -- intros _. exists u. repeat split; [done|lia].
        -- done.
        -- discriminate.
        -- intros (u' & [= <-] & _ & Hz). lia.
      * split; [discriminate | intros (u' & [= <-] & Hf & _); congruence].
    + split; [discriminate | intros (u' & Hf & _); discriminate].
  - intros token. rewrite login_unfold. destruct (login_lookup form_username db) as [u|].
    + destruct (verify_password form_password (User.hashed_password u)) eqn:Hpw; cbn [negb].
      * destruct (User.is_active u =? 0) eqn:Hact; split.
        -- discriminate.
        -- intros (u' & [= <-] & _ & Hz & _). lia.
        -- intros [= <-]. exists u. repeat split; [done|lia].
        -- intros (u' & [= <-] & _ & _ & ->). done.
      * split; [discriminate | intros (u' & [= <-] & Hf & _); congruence].
    + split; [discriminate | intros (u' & Hf & _); discriminate].
  - intros u t _. unfold verify_token, token_for. cbn [access_token].
    rewrite (decode_issued settings _ (User.username u)) by issued_payload.
    destruct (_ <? t); [done|].
    now rewrite lookup_insert_ne, lookup_insert_eq.
  - intros other Hsame. rewrite !login_unfold. now rewrite Hsame.
  - done.
Qed.


(** C5. [register] raises 400 "Email already registered" when a user holds
    the email, whatever the username (the email check comes first); it
    raises 400 "Username already taken" when only the username is held; in
    both cases nothing is stored.  Otherwise it appends an active user with
    the next id whose stored hash is the hash of the password, and answers
    (under status 201) with that user's [UserResponse], which has no hash
    field and is the same whatever the salt. *)
Theorem C5_register (user_data : UserCreate.t) (salt : string) (now : Z) (db : Session) :
  let email_held :=
    exists u, u ∈ users db /\ User.email u = UserCreate.email user_data in
  let username_held :=
    exists u, u ∈ users db /\ User.username u = UserCreate.username user_data in
  let new_user :=
    User.mk (next_user_id db) (UserCreate.email user_data)
      (UserCreate.username user_data)
      (get_password_hash salt (UserCreate.password user_data))
      (UserCreate.full_name user_data) 1 now in
  (email_held ->
     register user_data salt now db =
       (Raise (HTTPException 400 "Email already registered"), db)) /\
  (~ email_held -> username_held ->
     register user_data salt now db =
       (Raise (HTTPException 400 "Username already taken"), db)) /\
  (~ email_held -> ~ username_held ->
     register user_data salt now db =
       (Ok (UserResponse.mk (UserCreate.email user_data) (UserCreate.username user_data)
              (UserCreate.full_name user_data) (next_user_id db) 1 now),
        mkSession (users db ++ [new_user]) (expenses db)
          (next_user_id db + 1) (next_expense_id db))) /\
  verify_password (UserCreate.password user_data) (User.hashed_password new_user) = true /\
  (forall salt', (register user_data salt' now db).1 = (register user_data salt now db).1) /\
  resolve app "POST" "/api/auth/register"
    = Some (mkRoute "POST" "/api/auth/register" "register" 201).
Proof.
  intros email_held username_held new_user. split_facts.
  - intros (u & Hu & Hemail). unfold register.
    destruct (first (filter (λ u, User.email u = _) (users db))) eqn:Hfirst; [done|].
    rewrite first_filter_None in Hfirst. now destruct (Hfirst u Hu).
  - intros Hfree (u & Hu & Hname). unfold register.
    destruct (first (filter (λ u, User.email u = _) (users db))) as [v|] eqn:Hemail.
    { apply first_filter_Some in Hemail as [Hv Hveq]. destruct Hfree. now exists v. }
    destruct (first (filter (λ u, User.username u = _) (users db))) eqn:Hfirst; [done|].
    rewrite first_filter_None in Hfirst. now destruct (Hfirst u Hu).
  - intros Hfree_email Hfree_name. unfold register.
    destruct (first (filter (λ u, User.email u = _) (users db))) as [v|] eqn:Hemail.
    { apply first_filter_Some in Hemail as [Hv Hveq]. destruct Hfree_email. now exists v. }
    destruct (first (filter (λ u, User.username u = _) (users db))) as [v|] eqn:Hname.
    { apply first_filter_Some in Hname as [Hv Hveq]. destruct Hfree_name. now exists v. }
    reflexivity.
  - apply pwd_verify_hash.
  - intros salt'. unfold register.
    destruct (first (filter (λ u, User.email u = _) (users db))); [done|].
    now destruct (first (filter (λ u, User.username u = _) (users db))).
  - vm_compute. reflexivity.
Qed.


Lemma truthy_str_true (s : string) : truthy_str s = true <-> s <> "".
Proof.
  unfold truthy_str. destruct (String.eqb_spec s ""); split; intros; try done.
Qed.

Lemma taken_by_other_true (new : option string) (current : string)
    (column : User.t -> string) (db : Session) :
  taken_by_other new current column db = true <->
  exists x, new = Some x /\ x <> "" /\ x <> current /\
    exists u, u ∈ users db /\ column u = x.
Proof.
  unfold taken_by_other. destruct new as [x|]; [|split; [done | intros (? & ? & _); done]].
  destruct (truthy_str x) eqn:Htruthy; cbn [andb].
  - apply truthy_str_true in Htruthy.
    destruct (String.eqb_spec x current) as [->|Hne]; cbn [negb].
    + split; [done | intros (? & [= <-] & _ & ? & _); done].
    + destruct (first (filter (λ u, column u = x) (users db))) as [u|] eqn:Hfirst.
      * apply first_filter_Some in Hfirst as [Hu Hcol]. split; [|done].
        intros _. exists x. eauto 10.
      * rewrite first_filter_None in Hfirst. split; [done|].
        intros (? & [= <-] & _ & _ & u & Hu & Hcol). now destruct (Hfirst u Hu).
  - split; [done|]. intros (? & [= <-] & Hx & _).
    apply truthy_str_true in Hx. congruence.
Qed.

(** A value that is absent, empty or the current one is never taken. *)
Lemma taken_by_other_same (new : option string) (column : User.t -> string)
    (db : Session) (current : string) :
  (forall x, new = Some x -> x <> "" -> x = current) ->
  taken_by_other new current column db = false.
Proof.
  intros Hsame. destruct (taken_by_other new current column db) eqn:Htaken; [|done].
  apply taken_by_other_true in Htaken as (x & Hx & Hne & Hdiff & _).
  now destruct Hdiff, (Hsame x).
Qed.

(** C9 (amended). [update_profile] assigns each of email, username,
    full_name and password exactly when the patch gives it a non-empty
    value, leaving the other stored fields as they were; a password is
    stored hashed, and the hash verifies it.  A new email (a value other
    than the caller's own) held by a user of the table is refused with 400
    "Email already in use", then likewise a new username with 400 "Username
    already taken"; the caller's own current email or username is never a
    conflict.  Applying the same patch a second time always succeeds and
    leaves email, username and full_name as the first application stored
    them; a password in the patch is hashed again, with the salt drawn at
    that second call. *)
Theorem C9_update_profile (user_update : UserUpdate.t) (current_user : User.t)
    (salt : string) (db : Session) :
  let applied (new : option string) (current : string) : string :=
    match new with
    | Some x => if decide (x = "") then current else x
    | None => current
    end in
  let email_conflict :=
    exists e, UserUpdate.email user_update = Some e /\ e <> "" /\
      e <> User.email current_user /\ exists u, u ∈ users db /\ User.email u = e in
  let username_conflict :=
    exists n, UserUpdate.username user_update = Some n /\ n <> "" /\
      n <> User.username current_user /\ exists u, u ∈ users db /\ User.username u = n in
  let stored_hash (salt : string) (current : string) : string :=
    match UserUpdate.password user_update with
    | Some p => if decide (p = "") then current else get_password_hash salt p
    | None => current
    end in
  let updated := update_profile_fields user_update current_user salt in
  (User.email updated = applied (UserUpdate.email user_update) (User.email current_user) /\
   User.username updated =
     applied (UserUpdate.username user_update) (User.username current_user) /\
   User.full_name updated =
     match UserUpdate.full_name user_update with
     | Some f => if decide (f = "") then User.full_name current_user else Some f
     | None => User.full_name current_user
     end /\
   User.hashed_password updated = stored_hash salt (User.hashed_password current_user) /\
   (forall p, UserUpdate.password user_update = Some p -> p <> "" ->
      verify_password p (User.hashed_password updated) = true) /\
   User.id updated = User.id current_user /\
   User.is_active updated = User.is_active current_user /\
   User.created_at updated = User.created_at current_user) /\
  (email_conflict ->
     update_profile user_update current_user salt db =
       (Raise (HTTPException 400 "Email already in use"), db)) /\
  (~ email_conflict -> username_conflict ->
     update_profile user_update current_user salt db =
       (Raise (HTTPException 400 "Username already taken"), db)) /\
  (~ email_conflict -> ~ username_conflict ->
     update_profile user_update current_user salt db =
       (Ok (UserResponse_from_attributes updated), commit_user updated db)) /\
  (UserUpdate.email user_update = Some (User.email current_user) -> ~ email_conflict) /\
  (UserUpdate.username user_update = Some (User.username current_user) ->
     ~ username_conflict) /\
  (forall salt2 db2,
     let again := update_profile_fields user_update updated salt2 in
     update_profile user_update updated salt2 db2 =
       (Ok (UserResponse_from_attributes again), commit_user again db2) /\
     User.email again = User.email updated /\
     User.username again = User.username updated /\
     User.full_name again = User.full_name updated /\
     User.hashed_password again = stored_hash salt2 (User.hashed_password updated)).
Proof.
  intros applied email_conflict username_conflict stored_hash updated.
  assert (Happlied : forall new current,
    match new with
    | Some x => if truthy_str x then x else current
    | None => current
    end = applied new current).
  { intros [x|] current; [|done]. unfold applied, truthy_str.
    destruct (String.eqb_spec x ""), (decide (x = "")); done. }
  assert (Hhash : forall salt' current,
    match UserUpdate.password user_update with
    | Some p => if truthy_str p then get_password_hash salt' p else current
    | None => current
    end = stored_hash salt' current).
  { intros salt' current. unfold stored_hash, truthy_str.
    destruct (UserUpdate.password user_update) as [p|]; [|done].
    destruct (String.eqb_spec p ""), (decide (p = "")); done. }
  assert (Hname : forall current : option string,
    match UserUpdate.full_name user_update with
    | Some f => if truthy_str f then Some f else current
    | None => current
    end = match UserUpdate.full_name user_update with
          | Some f => if decide (f = "") then current else Some f
          | None => current
          end).
  { intros current. unfold truthy_str.
    destruct (UserUpdate.full_name user_update) as [f|]; [|done].
    destruct (String.eqb_spec f ""), (decide (f = "")); done. }
  assert (Hemail : taken_by_other (UserUpdate.email user_update)
            (User.email current_user) User.email db = true <-> email_conflict)
    by apply taken_by_other_true.
  assert (Husername : taken_by_other (UserUpdate.username user_update)
            (User.username current_user) User.username db = true <-> username_conflict)
    by apply taken_by_other_true.
  split_facts.
  - apply Happlied.
  - apply Happlied.
  - apply Hname.
  - apply Hhash.
  - intros p Hp Hne. subst updated. unfold update_profile_fields.
    cbn [User.hashed_password]. rewrite Hp.
    apply truthy_str_true in Hne as ->. apply pwd_verify_hash.
  - done.
  - done.
  - done.
  - intros Hc. apply Hemail in Hc. unfold update_profile. now rewrite Hc.
  - intros Hfree Hc. unfold update_profile.
    destruct (taken_by_other (UserUpdate.email _) _ _ _); [now destruct Hfree; apply Hemail|].
    apply Husername in Hc. now rewrite Hc.
  - intros Hfree_email Hfree_name. unfold update_profile.
    destruct (taken_by_other (UserUpdate.email _) _ _ _);
      [now destruct Hfree_email; apply Hemail|].
    destruct (taken_by_other (UserUpdate.username _) _ _ _);
      [now destruct Hfree_name; apply Husername|].
    done.
  - intros Hown (e & He & _ & Hdiff & _). congruence.
  - intros Hown (n & Hn & _ & Hdiff & _). congruence.
  - intros salt2 db2 again.
    assert (Hup_email : User.email updated =
              applied (UserUpdate.email user_update) (User.email current_user))
      by apply Happlied.
    assert (Hup_name : User.username updated =
              applied (UserUpdate.username user_update) (User.username current_user))
      by apply Happlied.
    split_facts.
    + unfold update_profile.
      rewrite !taken_by_other_same; [done| |].
      * intros n Hn Hne. rewrite Hup_name. unfold applied. rewrite Hn.
        now rewrite decide_False.
      * intros e He Hne. rewrite Hup_email. unfold applied. rewrite He.
        now rewrite decide_False.
    + subst again. unfold update_profile_fields at 1. cbn [User.email].
      rewrite Happlied, Hup_email. unfold applied.
      destruct (UserUpdate.email user_update) as [e|]; [|done].
      now destruct (decide (e = "")).
    + subst again. unfold update_profile_fields at 1. cbn [User.username].
      rewrite Happlied, Hup_name. unfold applied.
      destruct (UserUpdate.username user_update) as [n|]; [|done].
      now destruct (decide (n = "")).
    + subst again updated. unfold update_profile_fields. cbn [User.full_name].
      destruct (UserUpdate.full_name user_update) as [f|]; [|done].
      now destruct (truthy_str f).
    + subst again. unfold update_profile_fields at 1. cbn [User.hashed_password].
      apply Hhash.
Qed.

End auth_facts.

(** C9, as stated, fails for the password: bcrypt draws a fresh salt at each
    call, so the hash stored by a second application of the same patch is
    not the one the first application stored (here with the reference
    hash and the salts "a" then "b"). *)
Lemma C9_second_application_changes_hash :
  let once :=
    @update_profile ref_pwd_context password_patch example_user "a" example_db in
  let updated := @update_profile_fields ref_pwd_context password_patch example_user "a" in
  let twice := @update_profile ref_pwd_context password_patch updated "b" once.2 in
  User.hashed_password <$> users once.2 = ["ahunter22"] /\
  User.hashed_password <$> users twice.2 = ["bhunter22"] /\
  users twice.2 <> users once.2.
Proof.
  cbv zeta. split; [vm_compute; reflexivity|]. split; [vm_compute; reflexivity|].
  intros Heq. apply (f_equal (fmap User.hashed_password)) in Heq.
  vm_compute in Heq. discriminate Heq.
Qed.

(** ** Expense ledger *)

Lemma insert_desc_perm (e : Expense.t) (rows : list Expense.t) :
  insert_desc e rows ≡ₚ e :: rows.
Proof.
  induction rows as [|x rows IH]; [done|]. cbn [insert_desc].
  destruct (date_geb _ _); [done|]. rewrite IH. apply Permutation_swap.
Qed.

Lemma order_by_date_desc_perm (rows : list Expense.t) :
  order_by_date_desc rows ≡ₚ rows.
Proof.
  induction rows as [|e rows IH]; [done|].
  unfold order_by_date_desc in *. cbn [foldr].
  rewrite insert_desc_perm. now rewrite IH.
Qed.

Lemma date_geb_total (d1 d2 : option Z) : date_geb d1 d2 = false -> date_geb d2 d1 = true.
Proof. destruct d1, d2; cbn; try done. intros. lia. Qed.

Lemma date_geb_trans (d1 d2 d3 : option Z) :
  date_geb d1 d2 = true -> date_geb d2 d3 = true -> date_geb d1 d3 = true.
Proof. destruct d1, d2, d3; cbn; try done. intros. lia. Qed.

Lemma insert_desc_sorted (e : Expense.t) (rows : list Expense.t) :
  StronglySorted not_older rows -> StronglySorted not_older (insert_desc e rows).
Proof.
  induction 1 as [|x rows Hsorted IH Hx]; cbn [insert_desc].
  - repeat constructor.
  - destruct (date_geb (Expense.date e) (Expense.date x)) eqn:Hex.
    + constructor; [now constructor|]. constructor; [done|].
      eapply Forall_impl; [exact Hx|]. intros y Hy.
      unfold not_older in *. eauto using date_geb_trans.
    + constructor; [done|].
      rewrite insert_desc_perm. constructor; [|done].
      now apply date_geb_total.
Qed.

Lemma order_by_date_desc_sorted (rows : list Expense.t) :
  StronglySorted not_older (order_by_date_desc rows).
Proof.
  induction rows as [|e rows IH]; [constructor|].
  now apply insert_desc_sorted.
Qed.

Lemma filter_if_passes (category : option ExpenseCategory) (start_date end_date : option Z)
    (owner : Z) (rows : list Expense.t) :
  filter_if end_date (λ d e, date_le e d)
    (filter_if start_date (λ d e, date_ge e d)
       (filter_if category (λ c e, category_is e c)
          (filter (λ e, Expense.user_id e = owner) rows))) =
  filter (λ e, Expense.user_id e = owner /\ passes category start_date end_date e) rows.
Proof.
  unfold filter_if, passes, category_is.
  destruct category, start_date, end_date;
    rewrite ?list_filter_filter; apply list_filter_iff; intros row; tauto.
Qed.

(** The listing endpoint is the listing of the specification, paginated. *)
Lemma get_expenses_spec_list skip limit category start_date end_date current_user db :
  get_expenses skip limit category start_date end_date current_user db =
    take limit (drop skip (spec_list current_user category start_date end_date db)).
Proof. unfold get_expenses, spec_list. now rewrite filter_if_passes. Qed.

(** C7. The week (month) view is the listing of the specification with a
    [start_date] of now minus 7 (30) days and no other filter, that is the
    owner's expenses dated from then on, newest first, all of them; the
    paginated endpoint [get_expenses] with the same [start_date], no
    category, no [end_date] and [skip = 0] returns its first [limit] rows,
    hence the same list whenever [limit] covers it. *)
Theorem C7_recent_is_list (current_user : User.t) (now : Z) (db : Session) :
  get_week_expenses current_user now db =
    spec_list current_user None (Some (now - 7 * 86400)) None db /\
  get_month_expenses current_user now db =
    spec_list current_user None (Some (now - 30 * 86400)) None db /\
  (forall window e,
     e ∈ spec_list current_user None (Some (now - window)) None db <->
     e ∈ expenses db /\ Expense.user_id e = User.id current_user /\
     exists d, Expense.date e = Some d /\ now - window <= d) /\
  (forall window,
     spec_list current_user None (Some (now - window)) None db ≡ₚ
       filter (λ e, Expense.user_id e = User.id current_user /\ date_ge e (now - window))
         (expenses db)) /\
  (forall window,
     StronglySorted not_older (spec_list current_user None (Some (now - window)) None db)) /\
  (forall limit,
     get_expenses 0 limit None (Some (now - 7 * 86400)) None current_user db =
       take limit (get_week_expenses current_user now db)) /\
  (forall limit,
     get_expenses 0 limit None (Some (now - 30 * 86400)) None current_user db =
       take limit (get_month_expenses current_user now db)) /\
  (forall limit, (length (get_week_expenses current_user now db) <= limit)%nat ->
     get_expenses 0 limit None (Some (now - 7 * 86400)) None current_user db =
       get_week_expenses current_user now db) /\
  (forall limit, (length (get_month_expenses current_user now db) <= limit)%nat ->
     get_expenses 0 limit None (Some (now - 30 * 86400)) None current_user db =
       get_month_expenses current_user now db).
Proof.
  assert (Hrecent : forall window,
    order_by_date_desc
      (filter (λ e, Expense.user_id e = User.id current_user /\ date_ge e (now - window))
         (expenses db)) =
    spec_list current_user None (Some (now - window)) None db).
  { intros window. unfold spec_list. f_equal.
    apply list_filter_iff. intros e. unfold passes. tauto. }
  assert (Hweek : get_week_expenses current_user now db =
            spec_list current_user None (Some (now - 7 * 86400)) None db)
    by apply (Hrecent (7 * 86400)).
  assert (Hmonth : get_month_expenses current_user now db =
            spec_list current_user None (Some (now - 30 * 86400)) None db)
    by apply (Hrecent (30 * 86400)).
  split_facts; try done.
  - intros window e. rewrite <- Hrecent, order_by_date_desc_perm, list_elem_of_filter.
    unfold date_ge. destruct (Expense.date e) as [d|].
    + split; [intros ([? ?] & ?); eauto 10 | intros (? & ? & d' & [= <-] & ?); eauto].
    + split; [intros ([_ []] & _) | intros (_ & _ & d' & [=] & _)].
  - intros window. rewrite <- Hrecent. apply order_by_date_desc_perm.
  - intros window. rewrite <- Hrecent. apply order_by_date_desc_sorted.
  - intros limit. now rewrite get_expenses_spec_list, drop_0, Hweek.
  - intros limit. now rewrite get_expenses_spec_list, drop_0, Hmonth.
  - intros limit Hlen. rewrite get_expenses_spec_list, drop_0, <- Hweek.
    now apply take_ge.
  - intros limit Hlen. rewrite get_expenses_spec_list, drop_0, <- Hmonth.
    now apply take_ge.
Qed.

Lemma owned_expense_None (expense_id : Z) (current_user : User.t) (db : Session) :
  owned_expense expense_id current_user db = None <->
  ~ exists e, e ∈ expenses db /\ Expense.id e = expense_id /\
      Expense.user_id e = User.id current_user.
Proof.
  unfold owned_expense. rewrite first_filter_None. split.
  - intros Hnone (e & He & Hid & Howner). now apply (Hnone e He).
  - intros Hnone e He [Hid Howner]. apply Hnone. eauto.
Qed.

Lemma owned_expense_Some (expense_id : Z) (current_user : User.t) (db : Session)
    (expense : Expense.t) :
  owned_expense expense_id current_user db = Some expense ->
  expense ∈ expenses db /\ Expense.id expense = expense_id /\
  Expense.user_id expense = User.id current_user.
Proof. unfold owned_expense. intros Hfirst. now apply first_filter_Some in Hfirst. Qed.

Lemma setattrs_raise (expense : Expense.t) (expense_update : ExpenseUpdate.t) (now : Z)
    (e : exn) :
  setattrs expense expense_update now = Raise e -> e = IntegrityError.
Proof.
  unfold setattrs. repeat case_match; intros Hset; now inversion Hset.
Qed.

(** When the lookup succeeds [update_expense] does not raise an
    [HTTPException]. *)
Lemma update_expense_found expense_id expense_update current_user now db expense :
  owned_expense expense_id current_user db = Some expense ->
  forall status_code detail,
    (update_expense expense_id expense_update current_user now db).1 <>
      Raise (HTTPException status_code detail).
Proof.
  intros Howned status_code detail. unfold update_expense. rewrite Howned.
  destruct (setattrs expense expense_update now) as [updated|e] eqn:Hset; cbn [fst].
  - discriminate.
  - apply setattrs_raise in Hset as ->. discriminate.
Qed.

(** C3. [get_expense], [update_expense] and [delete_expense] raise 404
    "Expense not found" exactly when the table holds no expense with that id
    and the caller's user id; then nothing is written.  The answer is that
    same exception whether the id is unknown or belongs to another user, so
    the two cases cannot be told apart, and no handler ever answers 403. *)
Theorem C3_not_found (expense_id : Z) (current_user : User.t) (db : Session) :
  let owned :=
    exists e, e ∈ expenses db /\ Expense.id e = expense_id /\
      Expense.user_id e = User.id current_user in
  let not_found := HTTPException 404 "Expense not found" in
  (get_expense expense_id current_user db = Raise not_found <-> ~ owned) /\
  (forall expense_update now,
     (update_expense expense_id expense_update current_user now db).1 = Raise not_found
       <-> ~ owned) /\
  ((delete_expense expense_id current_user db).1 = Raise not_found <-> ~ owned) /\
  (~ owned ->
     (forall expense_update now,
        update_expense expense_id expense_update current_user now db =
          (Raise not_found, db)) /\
     delete_expense expense_id current_user db = (Raise not_found, db)) /\
  (forall other_user other_db,
     (~ exists e, e ∈ expenses other_db /\ Expense.id e = expense_id /\
          Expense.user_id e = User.id other_user) ->
     ~ owned ->
     get_expense expense_id current_user db = get_expense expense_id other_user other_db /\
     (forall expense_update now,
        (update_expense expense_id expense_update current_user now db).1 =
        (update_expense expense_id expense_update other_user now other_db).1) /\
     (delete_expense expense_id current_user db).1 =
       (delete_expense expense_id other_user other_db).1) /\
  (forall detail,
     get_expense expense_id current_user db <> Raise (HTTPException 403 detail) /\
     (forall expense_update now,
        (update_expense expense_id expense_update current_user now db).1 <>
          Raise (HTTPException 403 detail)) /\
     (delete_expense expense_id current_user db).1 <> Raise (HTTPException 403 detail)).
Proof.
  intros owned not_found.
  pose proof (owned_expense_None expense_id current_user db) as Hnone.
  fold owned in Hnone.
  assert (Hother : forall other_user other_db,
    (~ exists e, e ∈ expenses other_db /\ Expense.id e = expense_id /\
         Expense.user_id e = User.id other_user) ->
    owned_expense expense_id other_user other_db = None)
    by (intros; now apply owned_expense_None).
  destruct (owned_expense expense_id current_user db) as [expense|] eqn:Howned.
  - assert (Hyes : ~ ~ owned) by (intros Hno; apply Hnone in Hno; discriminate).
    pose proof (update_expense_found expense_id) as Hupdate.
    unfold get_expense, delete_expense. rewrite Howned.
    split_facts; try done; try (split; [discriminate | done]).
    + intros expense_update now. split; [|done].
      intros Hraise. now apply (Hupdate _ _ _ _ _ Howned) in Hraise.
    + intros detail. split_facts; [discriminate | | discriminate].
      intros expense_update now. now apply (Hupdate _ _ _ _ _ Howned).
  - assert (Hno : ~ owned) by now apply Hnone.
    unfold get_expense, update_expense, delete_expense. rewrite Howned.
    split_facts; try done.
    intros other_user other_db Hforeign _. now rewrite (Hother _ _ Hforeign).
Qed.

Lemma commit_expense_rows (updated : Expense.t) (db : Session) (row : Expense.t) :
  row ∈ expenses (commit_expense updated db) <->
  (row = updated /\ exists old, old ∈ expenses db /\ Expense.id old = Expense.id updated) \/
  (row ∈ expenses db /\ Expense.id row <> Expense.id updated).
Proof.
  unfold commit_expense. cbn [expenses]. rewrite list_elem_of_fmap. split.
  - intros (old & -> & Hold). destruct (decide _); eauto.
  - intros [[-> (old & Hold & Hid)] | [Hrow Hid]].
    + exists old. now rewrite decide_True.
    + exists row. now rewrite decide_False.
Qed.

(** C6 (amended). For an expense the caller owns and a patch that sets none
    of the required columns (title, amount, category) to null,
    [update_expense] succeeds; in the row it returns and stores, every field
    the patch sets has the patch's value (a description or date set to null
    becomes NULL), every field the patch leaves out keeps its previous
    value, as do the id, owner, creation time and AI columns, and
    [updated_at] is the current time, also when the patch is empty.  The
    other rows of the table are untouched. *)
Theorem C6_update_expense (expense_id : Z) (expense_update : ExpenseUpdate.t)
    (current_user : User.t) (now : Z) (db : Session) (expense : Expense.t) :
  owned_expense expense_id current_user db = Some expense ->
  ExpenseUpdate.title expense_update <> Some None ->
  ExpenseUpdate.amount expense_update <> Some None ->
  ExpenseUpdate.category expense_update <> Some None ->
  exists updated,
    update_expense expense_id expense_update current_user now db =
      (Ok updated, commit_expense updated db) /\
    Expense.updated_at updated = now /\
    (forall v, ExpenseUpdate.title expense_update = Some (Some v) ->
       Expense.title updated = v) /\
    (ExpenseUpdate.title expense_update = None ->
       Expense.title updated = Expense.title expense) /\
    (forall v, ExpenseUpdate.amount expense_update = Some (Some v) ->
       Expense.amount updated = v) /\
    (ExpenseUpdate.amount expense_update = None ->
       Expense.amount updated = Expense.amount expense) /\
    (forall v, ExpenseUpdate.category expense_update = Some (Some v) ->
       Expense.category updated = v) /\
    (ExpenseUpdate.category expense_update = None ->
       Expense.category updated = Expense.category expense) /\
    (forall v, ExpenseUpdate.description expense_update = Some v ->
       Expense.description updated = v) /\
    (ExpenseUpdate.description expense_update = None ->
       Expense.description updated = Expense.description expense) /\
    (forall v, ExpenseUpdate.date expense_update = Some v ->
       Expense.date updated = v) /\
    (ExpenseUpdate.date expense_update = None ->
       Expense.date updated = Expense.date expense) /\
    Expense.id updated = Expense.id expense /\
    Expense.user_id updated = Expense.user_id expense /\
    Expense.created_at updated = Expense.created_at expense /\
    Expense.ai_confidence updated = Expense.ai_confidence expense /\
    Expense.ai_suggested_category updated = Expense.ai_suggested_category expense /\
    (ExpenseUpdate.title expense_update = None ->
     ExpenseUpdate.amount expense_update = None ->
     ExpenseUpdate.category expense_update = None ->
     ExpenseUpdate.description expense_update = None ->
     ExpenseUpdate.date expense_update = None ->
     updated = Expense.mk (Expense.id expense) (Expense.title expense)
       (Expense.amount expense) (Expense.category expense)
       (Expense.description expense) (Expense.date expense)
       (Expense.created_at expense) now (Expense.user_id expense)
       (Expense.ai_confidence expense) (Expense.ai_suggested_category expense)) /\
    (forall row, row ∈ expenses (commit_expense updated db) <->
       row = updated \/ (row ∈ expenses db /\ Expense.id row <> Expense.id expense)).
Proof.
  intros Howned Htitle Hamount Hcategory.
  unfold update_expense, setattrs. rewrite Howned.
  destruct expense_update as [title amount category description date].
  cbn [ExpenseUpdate.title ExpenseUpdate.amount ExpenseUpdate.category
       ExpenseUpdate.description ExpenseUpdate.date] in *.
  destruct title as [[title|]|]; [| done |];
    (destruct amount as [[amount|]|]; [| done |]);
    (destruct category as [[category|]|]; [| done |]);
    cbn [set_required set_nullable];
    (eexists; split; [reflexivity|]);
    cbn [Expense.updated_at Expense.title Expense.amount Expense.category
         Expense.description Expense.date Expense.id Expense.user_id
         Expense.created_at Expense.ai_confidence Expense.ai_suggested_category];
    split_facts; try done; try congruence;
    try (intros; subst; reflexivity).
  all: intros row; rewrite commit_expense_rows;
    cbn [Expense.id];
    apply owned_expense_Some in Howned as (Hin & _ & _);
    split; [intros [[-> _] | ?]; [by left | by right] | intros [-> | ?]; [left | by right]];
    split; [done | by exists expense].
Qed.

Lemma C6_update_expense_witness :
  exists updated,
    update_expense 1 amount_patch example_user 1000 example_db =
      (Ok updated, commit_expense updated example_db) /\
    Expense.updated_at updated = 1000 /\
    Expense.amount updated = 12.5%float /\
    Expense.title updated = "A".
Proof.
  destruct (C6_update_expense 1 amount_patch example_user 1000 example_db
              (example_expense 1 "A" 10 FOOD 1 1))
    as (updated & Hupdate & Hat & _ & Htitle & Hamount & _);
    [vm_compute; reflexivity | discriminate | discriminate | discriminate |].
  exists updated. split; [exact Hupdate|]. split; [exact Hat|].
  split; [now apply Hamount | now rewrite Htitle].
Defined.

(** C6, as stated, fails on a patch that sets a required column to null:
    the body [{"title": null}] passes the schema, the UPDATE violates
    [nullable=False], and the request ends in an [IntegrityError] with
    nothing stored: neither the title nor [updated_at] changes. *)
Lemma C6_null_title_is_not_applied :
  owned_expense 1 example_user example_db = Some (example_expense 1 "A" 10 FOOD 1 1) /\
  update_expense 1 null_title_patch example_user 1000 example_db =
    (Raise IntegrityError, example_db) /\
  ~ exists updated db',
      update_expense 1 null_title_patch example_user 1000 example_db = (Ok updated, db') /\
      Expense.updated_at updated = 1000.
Proof.
  split; [vm_compute; reflexivity|]. split; [vm_compute; reflexivity|].
  intros (updated & db' & Hupdate & _). vm_compute in Hupdate. discriminate Hupdate.
Qed.

(** ** The application *)

(** C1, evaluated on main.py.  [expense_router] declares the eight Expense
    Ledger routes, but [app] includes [auth_router] only: no route of the
    application lies under [/api/expenses], so no request for an Expense
    Ledger endpoint is served by a handler, while the authentication
    endpoints are; each request would reach its handler had main.py included
    the router. *)
Lemma C1_expense_routes_not_registered :
  (λ r, (route_method r, (prefix expense_router ++ route_path r)%string))
    <$> routes expense_router = expense_ledger_endpoints /\
  Forall (λ r, String.prefix "/api/expenses" (route_path r) = false) app /\
  Forall (λ '(method, path), endpoint_of app method path = None)
    expense_ledger_endpoints /\
  Forall (λ '(method, path, handler), endpoint_of app method path = None)
    expense_ledger_requests /\
  Forall (λ '(method, path, handler),
            endpoint_of (include_router app expense_router) method path = Some handler)
    expense_ledger_requests /\
  endpoint_of app "POST" "/api/auth/login" = Some "login" /\
  endpoint_of app "GET" "/health" = Some "health_check".
Proof.
  split; [reflexivity|]. split; [repeat constructor|].
  split; [repeat constructor|]. split; [repeat constructor|].
  split; [repeat constructor|]. split; reflexivity.
Qed.

(** ** The model at work

    The handlers run on the reference instances: ann registers, logs in
    under either identifier and gets the same token, whose subject is her
    username and whose expiry is 30 minutes ahead; a reset token gives her
    email back for an hour and her access token is no reset token. *)
Example ann_registered :
  @register ref_pwd_context ann "s" 100 empty_db =
    (Ok (UserResponse.mk "ann@example.com" "ann" (Some "Ann Lee") 1 1 100),
     mkSession [User.mk 1 "ann@example.com" "ann" "ssecret1" (Some "Ann Lee") 1 100]
       [] 2 1) /\
  (@register ref_pwd_context (UserCreate.mk "ann@example.com" "bob" None "secret2")
     "t" 200 ann_db).1 = Raise (HTTPException 400 "Email already registered") /\
  (@register ref_pwd_context (UserCreate.mk "ann@example.com" "ann" None "secret2")
     "t" 200 ann_db).1 = Raise (HTTPException 400 "Email already registered") /\
  (@register ref_pwd_context (UserCreate.mk "bob@example.com" "ann" None "secret2")
     "t" 200 ann_db).1 = Raise (HTTPException 400 "Username already taken").
Proof. repeat split; vm_compute; reflexivity. Qed.

Example ann_logs_in :
  let by_username :=
    @login ref_jose ref_pwd_context default_settings "ann" "secret1" 1000 ann_db in
  let by_email :=
    @login ref_jose ref_pwd_context default_settings "ann@example.com" "secret1" 1000 ann_db in
  by_username = by_email /\
  by_username =
    Ok (@mkToken ref_jose
          (<["exp" := JNum 2800]> (<["sub" := JStr "ann"]> ∅),
           ("your-secret-key-here-change-this-in-production", "HS256"))
          "bearer") /\
  @login ref_jose ref_pwd_context default_settings "ann" "wrong" 1000 ann_db =
    Raise (HTTPException 401 "Incorrect username/email or password") /\
  @login ref_jose ref_pwd_context default_settings "bob" "secret1" 1000 ann_db =
    Raise (HTTPException 401 "Incorrect username/email or password").
Proof. cbv zeta. repeat split; vm_compute; reflexivity. Qed.

Example reset_token_round_trip :
  let token := @create_reset_password_token ref_jose default_settings "ann@example.com" 1000 in
  let access :=
    @create_access_token ref_jose default_settings (<["sub" := JStr "ann"]> ∅) None 1000 in
  @verify_reset_token ref_jose default_settings token 4600 = Ok (Some (JStr "ann@example.com")) /\
  @verify_reset_token ref_jose default_settings token 4601 = Ok None /\
  @verify_reset_token ref_jose default_settings access 1001 = Ok None /\
  @verify_token ref_jose default_settings access credentials_exception 1001 = Ok (JStr "ann").
Proof. cbv zeta. repeat split; vm_compute; reflexivity. Qed.

Example foreign_expense_looks_absent :
  get_expense 3 example_user example_db = Raise (HTTPException 404 "Expense not found") /\
  get_expense 77 example_user example_db = Raise (HTTPException 404 "Expense not found") /\
  (delete_expense 3 example_user example_db).2 = example_db /\
  Expense.title <$> get_expenses 0 100 None None None example_user example_db
    = ["C"; "B"; "A"].
Proof. repeat split; vm_compute; reflexivity. Qed.

(** ** Further properties *)

(** The grouping loop of the handler is [group_step] at binary64. *)
Lemma by_category_step_group_step (m : gmap string float) (e : Expense.t) :
  by_category_step m e =
    group_step 0%float PrimFloat.add m
      (category_value (Expense.category e)) (Expense.amount e).
Proof. reflexivity. Qed.

Section exact_arithmetic.
Context {A : Type} (zero : A) (add : A -> A -> A).
Hypothesis add_assoc : forall x y z, add x (add y z) = add (add x y) z.
Hypothesis add_comm : forall x y, add x y = add y x.
Hypothesis add_zero_l : forall x, add zero x = x.

Lemma sum_map_insert (m : gmap string A) (k : string) (v : A) :
  m !! k = None -> sum_map zero add (<[k := v]> m) = add (sum_map zero add m) v.
Proof.
  intros Hk. unfold sum_map. rewrite map_fold_insert_L; [done| |done].
  intros j1 j2 z1 z2 y _ _ _.
  now rewrite <- !add_assoc, (add_comm z2 z1).
Qed.

Lemma sum_map_update (m : gmap string A) (k : string) (v x : A) :
  m !! k = Some v ->
  sum_map zero add (<[k := add v x]> m) = add (sum_map zero add m) x.
Proof.
  intros Hk.
  rewrite <- (insert_delete_eq m k (add v x)).
  rewrite <- (insert_id m k v Hk) at 2.
  rewrite <- (insert_delete_eq m k v).
  rewrite !sum_map_insert by apply lookup_delete_eq.
  now rewrite add_assoc.
Qed.

Lemma sum_map_group_step (m : gmap string A) (k : string) (x : A) :
  sum_map zero add (group_step zero add m k x) = add (sum_map zero add m) x.
Proof.
  unfold group_step. destruct (m !! k) as [v|] eqn:Hk.
  - rewrite Hk. cbn [default]. now apply sum_map_update.
  - rewrite lookup_insert_eq. cbn [default].
    rewrite insert_insert_eq, sum_map_insert by done. now rewrite add_zero_l.
Qed.

(** In exact arithmetic, that is for an addition that is associative and
    commutative with [zero] neutral (integer cents, rationals), the values
    the grouping loop stores add up to the sum of all the amounts: the
    coherence that binary64 rounding breaks. *)
Theorem grouping_preserves_total (rows : list (string * A)) :
  sum_map zero add (group_all zero add rows) = fold_left add (rows.*2) zero.
Proof.
  unfold group_all.
  assert (Hgen : forall m,
    sum_map zero add (fold_left (λ m row, group_step zero add m row.1 row.2) rows m) =
    fold_left add (rows.*2) (sum_map zero add m)).
  { induction rows as [|[k x] rows IH]; intros m; [done|].
    cbn [fold_left fmap list_fmap fst snd]. now rewrite IH, sum_map_group_step. }
  rewrite Hgen. unfold sum_map at 1. now rewrite map_fold_empty.
Qed.

End exact_arithmetic.

Lemma grouping_preserves_total_witness :
  sum_map 0 Z.add (group_all 0 Z.add [("food", 540); ("transport", 245); ("food", 1250)])
    = 2035.
Proof.
  rewrite (grouping_preserves_total 0 Z.add Z.add_assoc Z.add_comm Z.add_0_l).
  reflexivity.
Defined.

(** X19. Deleting an account removes the user's row and, by the cascade, every
    expense of that user, and nothing else; afterwards every lookup by that
    user finds nothing, and an id that was theirs is not found by any caller
    (ids being unique). *)
Theorem delete_account_cascade (current_user : User.t) (db : Session) :
  let db' := (delete_account current_user db).2 in
  (forall u, u ∈ users db' <-> u ∈ users db /\ User.id u <> User.id current_user) /\
  (forall e, e ∈ expenses db' <->
     e ∈ expenses db /\ Expense.user_id e <> User.id current_user) /\
  (forall expense_id, get_expense expense_id current_user db' = Raise expense_not_found) /\
  (forall caller e,
     e ∈ expenses db -> Expense.user_id e = User.id current_user ->
     (forall e', e' ∈ expenses db -> Expense.id e' = Expense.id e -> e' = e) ->
     get_expense (Expense.id e) caller db' = Raise expense_not_found).
Proof.
  cbv zeta. unfold delete_account. cbn [snd users expenses]. split_facts.
  - intros u. rewrite list_elem_of_filter. tauto.
  - intros e. rewrite list_elem_of_filter. tauto.
  - intros expense_id. unfold get_expense.
    destruct (owned_expense _ _ _) as [e|] eqn:Howned; [|done].
    apply owned_expense_Some in Howned as (He & _ & Howner).
    cbn [expenses] in He. apply list_elem_of_filter in He as [Hne _]. done.
  - intros caller e He Howner Hunique. unfold get_expense.
    destruct (owned_expense _ _ _) as [e'|] eqn:Howned; [|done].
    apply owned_expense_Some in Howned as (He' & Hid & _).
    cbn [expenses] in He'. apply list_elem_of_filter in He' as [Hne He'].
    rewrite (Hunique e' He' Hid) in Hne. done.
Qed.

Section guard_facts.
Context {jose : Jose} {pwd_context : CryptContext} (settings : Settings).

(** X17. A token issued for a username with a lifetime verifies to that
    username up to its expiry, issue time plus lifetime, and raises the
    caller's exception after it; a zero lifetime counts as none given, and
    the configured default applies. *)
Theorem access_token_lifetime (username : string) (ttl issued now : Z) (e : exn) :
  let expire :=
    issued + (if ttl =? 0 then minutes (ACCESS_TOKEN_EXPIRE_MINUTES settings) else ttl) in
  verify_token settings
    (create_access_token settings (<["sub" := JStr username]> ∅) (Some ttl) issued) e now =
    if expire <? now then Raise e else Ok (JStr username).
Proof.
  cbv zeta. unfold verify_token. rewrite create_access_token_payload.
  rewrite (decode_issued settings _ username) by issued_payload.
  destruct (_ <? now); [done|].
  now rewrite lookup_insert_ne, lookup_insert_eq.
Qed.

(** X18. The token [login] returns authenticates, until it expires, as the user
    who logged in, provided her username designates her row. *)
Theorem login_then_authenticate (form_username form_password : string) (issued now : Z)
    (db : Session) (user : User.t) (token : Token) :
  login_lookup form_username db = Some user ->
  first (filter (λ u, User.username u = User.username user) (users db)) = Some user ->
  login settings form_username form_password issued db = Ok token ->
  now <= issued + 60 * ACCESS_TOKEN_EXPIRE_MINUTES settings ->
  get_current_active_user (get_current_user settings (access_token token) now db) = Ok user.
Proof.
  intros Hlookup Hrow Hlogin Hnow. rewrite login_unfold, Hlookup in Hlogin.
  destruct (negb _); [discriminate|].
  destruct (User.is_active user =? 0) eqn:Hactive; [discriminate|].
  injection Hlogin as <-. cbn [access_token].
  unfold get_current_user, verify_token.
  rewrite (decode_issued settings _ (User.username user)) by issued_payload.
  destruct (_ <? now) eqn:Hexp; [lia|].
  rewrite lookup_insert_ne, lookup_insert_eq by done.
  assert (Hfilter : filter (λ u, JStr (User.username u) = JStr (User.username user)) (users db)
                    = filter (λ u, User.username u = User.username user) (users db)).
  { apply list_filter_iff. intros u. split; [now intros [= ->] | now intros ->]. }
  rewrite Hfilter, Hrow. unfold get_current_active_user. now rewrite Hactive.
Qed.

End guard_facts.

Lemma login_then_authenticate_witness :
  exists token,
    @login ref_jose ref_pwd_context default_settings "ann@example.com" "secret1" 1000 ann_db
      = Ok token /\
    get_current_active_user
      (@get_current_user ref_jose default_settings (access_token token) 2800 ann_db)
      = Ok (User.mk 1 "ann@example.com" "ann" "ssecret1" (Some "Ann Lee") 1 100).
Proof.
  eexists. split; [vm_compute; reflexivity|].
  apply (@login_then_authenticate ref_jose ref_pwd_context default_settings
           "ann@example.com" "secret1" 1000 2800 ann_db);
    [vm_compute; reflexivity | vm_compute; reflexivity | vm_compute; reflexivity
    | vm_compute; discriminate].
Defined.

(** ** The schema's constraints and the handlers *)

Lemma ledger_db_rows :
  users ledger_db = [ann_row; bob_row] /\
  Expense.id <$> expenses ledger_db = [1; 2; 3] /\
  Expense.user_id <$> expenses ledger_db = [1; 2; 1].
Proof. repeat split; vm_compute; reflexivity. Qed.

Lemma ledger_db_constraints : constraints ledger_db.
Proof. apply (bool_decide_unpack _). vm_compute. exact I. Qed.

Section lists.
Context {A B : Type}.

(** In a table where column [g] is unique, two rows with the same [g] are
    the same row. *)
Lemma NoDup_fmap_eq (g : A -> B) (l : list A) (x y : A) :
  NoDup (g <$> l) -> x ∈ l -> y ∈ l -> g x = g y -> x = y.
Proof.
  induction l as [|a l IH]; [by intros _ ?%elem_of_nil|].
  rewrite fmap_cons, NoDup_cons, !elem_of_cons.
  intros [Ha Hl] [->|Hx] [->|Hy] Hg; [done | | | by apply IH].
  - destruct Ha. rewrite Hg. now apply list_elem_of_fmap_2.
  - destruct Ha. rewrite <- Hg. now apply list_elem_of_fmap_2.
Qed.

Lemma NoDup_fmap_filter (g : A -> B) (P : A -> Prop) `{forall x, Decision (P x)}
    (l : list A) :
  NoDup (g <$> l) -> NoDup (g <$> filter P l).
Proof.
  induction l as [|a l IH]; [done|].
  rewrite fmap_cons, NoDup_cons, filter_cons. intros [Ha Hl].
  destruct (decide (P a)); [|by apply IH].
  rewrite fmap_cons, NoDup_cons. split; [|by apply IH].
  intros (y & Hy & Hin)%list_elem_of_fmap.
  apply list_elem_of_filter in Hin as [_ Hin].
  apply Ha. rewrite Hy. now apply list_elem_of_fmap_2.
Qed.

Lemma Forall_filter_keep (Q P : A -> Prop) `{forall x, Decision (P x)} (l : list A) :
  Forall Q l -> Forall Q (filter P l).
Proof.
  rewrite !Forall_forall. intros HQ x Hx.
  apply list_elem_of_filter in Hx as [_ Hx]. now apply HQ.
Qed.

(** Rewriting the row of key [k]: a unique column stays unique when the new
    row's value is held by no other row. *)
Lemma NoDup_fmap_replace (key : A -> Z) (g : A -> B) (k : Z) (new : A) (l : list A) :
  NoDup (key <$> l) -> NoDup (g <$> l) ->
  (forall y, y ∈ l -> key y <> k -> g y <> g new) ->
  NoDup (g <$> ((λ row, if decide (key row = k) then new else row) <$> l)).
Proof.
  induction l as [|a l IH]; [done|].
  rewrite !fmap_cons, !NoDup_cons. intros [Hka Hkl] [Hga Hgl] Hnew.
  split; [|apply IH; [done | done | intros y Hy; apply Hnew; by right]].
  intros (z' & Hz' & (z & -> & Hz)%list_elem_of_fmap)%list_elem_of_fmap.
  destruct (decide (key a = k)) as [Hak|Hak], (decide (key z = k)) as [Hzk|Hzk].
  - apply Hka. rewrite Hak, <- Hzk. now apply list_elem_of_fmap_2.
  - apply (Hnew z); [by right | done | done].
  - apply (Hnew a); [by left | done | done].
  - apply Hga. rewrite Hz'. now apply list_elem_of_fmap_2.
Qed.

End lists.

Lemma commit_user_ids (user : User.t) (db : Session) :
  User.id <$> users (commit_user user db) = User.id <$> users db.
Proof.
  unfold commit_user. cbn [users]. rewrite <- list_fmap_compose.
  apply list_fmap_ext. intros i row _. cbn. now destruct (decide _).
Qed.

Section registry_constraints.
Context {pwd_context : CryptContext}.

(** X1. [register] keeps the constraints of the schema: whether it refuses
    or stores the new user, ids, emails and usernames stay unique and every
    expense keeps an owner.  Its two explicit checks are what makes the
    insert respect [unique=True]. *)
Theorem register_keeps_constraints (user_data : UserCreate.t) (salt : string) (now : Z)
    (db : Session) :
  constraints db -> constraints (register user_data salt now db).2.
Proof.
  intros [(Hids & Hemails & Hnames & Hbelow) (Heids & Hebelow & Howners)].
  unfold register.
  destruct (first (filter (λ u, User.email u = _) (users db))) eqn:Hemail;
    [by repeat split|].
  destruct (first (filter (λ u, User.username u = _) (users db))) eqn:Hname;
    [by repeat split|].
  rewrite first_filter_None in Hemail. rewrite first_filter_None in Hname.
  cbn [add_user snd users expenses next_user_id next_expense_id].
  repeat split; cbn [users expenses next_user_id next_expense_id];
    rewrite ?fmap_app; try done.
  - apply NoDup_app. split; [done|]. split; [|apply NoDup_singleton].
    intros i (u & -> & Hu)%list_elem_of_fmap Heq%list_elem_of_singleton.
    rewrite Forall_forall in Hbelow. apply Hbelow in Hu. cbn in Heq. lia.
  - apply NoDup_app. split; [done|]. split; [|apply NoDup_singleton].
    intros e (u & -> & Hu)%list_elem_of_fmap Heq%list_elem_of_singleton.
    now apply (Hemail u Hu).
  - apply NoDup_app. split; [done|]. split; [|apply NoDup_singleton].
    intros n (u & -> & Hu)%list_elem_of_fmap Heq%list_elem_of_singleton.
    now apply (Hname u Hu).
  - apply Forall_app. split.
    + eapply Forall_impl; [exact Hbelow|]. cbn. intros. lia.
    + repeat constructor. cbn. lia.
  - eapply Forall_impl; [exact Howners|]. cbn. intros e He.
    apply elem_of_app. now left.
Qed.

End registry_constraints.

Lemma register_keeps_constraints_witness :
  constraints (@register ref_pwd_context
                 (UserCreate.mk "cy@example.com" "cy" None "secret3") "u" 4000 ledger_db).2 /\
  length (users (@register ref_pwd_context
                   (UserCreate.mk "cy@example.com" "cy" None "secret3") "u" 4000
                   ledger_db).2) = 3%nat.
Proof.
  split; [|vm_compute; reflexivity].
  apply (@register_keeps_constraints ref_pwd_context). exact ledger_db_constraints.
Defined.

Section profile_constraints.
Context {pwd_context : CryptContext}.

(** A uniqueness check that passed: no other row holds the value that
    [update_profile] is about to store in the column. *)
Lemma not_taken_fresh (new : option string) (column : User.t -> string)
    (current_user : User.t) (db : Session) :
  taken_by_other new (column current_user) column db = false ->
  NoDup (column <$> users db) -> current_user ∈ users db ->
  forall y, y ∈ users db -> y <> current_user ->
    column y <> match new with
                | Some x => if truthy_str x then x else column current_user
                | None => column current_user
                end.
Proof.
  intros Hfree Hunique Hcur y Hy Hne.
  assert (Hown : column y <> column current_user)
    by (intros Heq; apply Hne; by apply (NoDup_fmap_eq column (users db))).
  destruct new as [x|]; [|done].
  destruct (truthy_str x) eqn:Htruthy; [|done].
  destruct (decide (x = column current_user)) as [->|Hx]; [done|].
  intros Heq.
  assert (Htaken : taken_by_other (Some x) (column current_user) column db = true).
  { apply taken_by_other_true. exists x. apply truthy_str_true in Htruthy. eauto 10. }
  congruence.
Qed.

(** X2. [update_profile] keeps the constraints of the schema when the caller
    is a row of the table: after a refusal nothing changed, and after a
    success ids, emails and usernames are still unique — the two checks
    against the other users are enough for the UPDATE to respect
    [unique=True] — and every expense still has its owner. *)
Theorem update_profile_keeps_constraints (user_update : UserUpdate.t)
    (current_user : User.t) (salt : string) (db : Session) :
  constraints db -> current_user ∈ users db ->
  constraints (update_profile user_update current_user salt db).2.
Proof.
  intros [(Hids & Hemails & Hnames & Hbelow) (Heids & Hebelow & Howners)] Hcur.
  unfold update_profile.
  destruct (taken_by_other (UserUpdate.email _) _ _ _) eqn:Hemail; [by repeat split|].
  destruct (taken_by_other (UserUpdate.username _) _ _ _) eqn:Hname; [by repeat split|].
  cbn [snd].
  set (updated := update_profile_fields user_update current_user salt).
  assert (Hother : forall y, y ∈ users db -> User.id y <> User.id current_user ->
            y <> current_user) by (intros y _ Hid ->; done).
  repeat split; cbn [expenses next_user_id next_expense_id]; try done.
  - now rewrite commit_user_ids.
  - apply (NoDup_fmap_replace User.id User.email); [done | done |].
    intros y Hy Hid. apply (not_taken_fresh _ User.email current_user db); auto.
  - apply (NoDup_fmap_replace User.id User.username); [done | done |].
    intros y Hy Hid. apply (not_taken_fresh _ User.username current_user db); auto.
  - unfold commit_user. cbn [users]. apply Forall_fmap.
    eapply Forall_impl; [exact Hbelow|]. cbn. intros row Hrow.
    destruct (decide _) as [Heq|]; [|done].
    rewrite Forall_forall in Hbelow. apply (Hbelow current_user Hcur).
  - now rewrite commit_user_ids.
Qed.

End profile_constraints.

Lemma update_profile_keeps_constraints_witness :
  constraints
    (@update_profile ref_pwd_context
       (UserUpdate.mk (Some "bob@work.example") (Some "robert") None None)
       bob_row "v" ledger_db).2 /\
  (@update_profile ref_pwd_context
     (UserUpdate.mk (Some "ann@example.com") None None None) bob_row "v" ledger_db).1
    = Raise (HTTPException 400 "Email already in use").
Proof.
  split; [|vm_compute; reflexivity].
  apply (@update_profile_keeps_constraints ref_pwd_context);
    [exact ledger_db_constraints | vm_compute; right; left].
Defined.

(** X3. [delete_account] keeps the constraints of the schema: the remaining
    ids, emails and usernames are unique, and because the user's expenses go
    with the row (the cascade), no remaining expense refers to a user that
    is gone. *)
Theorem delete_account_keeps_constraints (current_user : User.t) (db : Session) :
  constraints db -> constraints (delete_account current_user db).2.
Proof.
  intros [(Hids & Hemails & Hnames & Hbelow) (Heids & Hebelow & Howners)].
  unfold delete_account. cbn [snd].
  repeat split; cbn [users expenses next_user_id next_expense_id];
    try (by apply NoDup_fmap_filter); try (by apply Forall_filter_keep).
  rewrite Forall_forall in Howners. apply Forall_forall. intros e He.
  apply list_elem_of_filter in He as [Hne He].
  apply Howners, list_elem_of_fmap in He as (u & Hu & Hin).
  apply list_elem_of_fmap. exists u. split; [done|].
  apply list_elem_of_filter. split; [congruence | done].
Qed.

Lemma delete_account_keeps_constraints_witness :
  constraints (delete_account ann_row ledger_db).2 /\
  Expense.title <$> expenses (delete_account ann_row ledger_db).2 = ["bus"].
Proof.
  split; [|vm_compute; reflexivity].
  apply delete_account_keeps_constraints. exact ledger_db_constraints.
Defined.

(** What [update_expense] never touches: the id, the owner, the creation
    time and the two AI columns. *)
Lemma setattrs_keeps (expense updated : Expense.t) (expense_update : ExpenseUpdate.t)
    (now : Z) :
  setattrs expense expense_update now = Ok updated ->
  Expense.id updated = Expense.id expense /\
  Expense.user_id updated = Expense.user_id expense /\
  Expense.created_at updated = Expense.created_at expense /\
  Expense.updated_at updated = now.
Proof.
  unfold setattrs. repeat case_match; intros Hset; inversion Hset; done.
Qed.

Lemma commit_expense_ids (updated : Expense.t) (db : Session) :
  Expense.id <$> expenses (commit_expense updated db) = Expense.id <$> expenses db.
Proof.
  unfold commit_expense. cbn [expenses]. rewrite <- list_fmap_compose.
  apply list_fmap_ext. intros i row _. cbn. now destruct (decide _).
Qed.

(** X4. The three writing handlers of the expense router keep the
    constraints of the schema: [create_expense] (for a caller who is a row
    of the users table) hands out a fresh id and an existing owner,
    [update_expense] changes neither the id nor the owner of a row, and
    [delete_expense] only removes rows. *)
Theorem expense_writes_keep_constraints (current_user : User.t) (db : Session) :
  constraints db ->
  (forall expense_data now, current_user ∈ users db ->
     constraints (create_expense expense_data current_user now db).2) /\
  (forall expense_id expense_update now,
     constraints (update_expense expense_id expense_update current_user now db).2) /\
  (forall expense_id, constraints (delete_expense expense_id current_user db).2).
Proof.
  intros Hc. pose proof Hc as [Husers (Heids & Hebelow & Howners)]. split_facts.
  - intros expense_data now Hcur. unfold create_expense. cbn [snd].
    split; [exact Husers|].
    repeat split; cbn [users expenses next_user_id next_expense_id]; rewrite ?fmap_app.
    + apply NoDup_app. split; [done|]. split; [|apply NoDup_singleton].
      intros i (e & -> & He)%list_elem_of_fmap Heq%list_elem_of_singleton.
      rewrite Forall_forall in Hebelow. apply Hebelow in He. cbn in Heq. lia.
    + apply Forall_app. split.
      * eapply Forall_impl; [exact Hebelow|]. cbn. intros. lia.
      * repeat constructor. cbn. lia.
    + apply Forall_app. split; [done|]. repeat constructor. cbn.
      now apply list_elem_of_fmap_2.
  - intros expense_id expense_update now. unfold update_expense.
    destruct (owned_expense _ _ _) as [expense|] eqn:Howned; [|exact Hc].
    destruct (setattrs expense expense_update now) as [updated|] eqn:Hset;
      [|exact Hc].
    apply setattrs_keeps in Hset as (Hid & Howner & _).
    apply owned_expense_Some in Howned as (Hin & _ & _).
    cbn [snd]. split; [exact Husers|].
    repeat split; cbn [users next_user_id next_expense_id].
    + now rewrite commit_expense_ids.
    + unfold commit_expense. cbn [expenses]. apply Forall_fmap.
      eapply Forall_impl; [exact Hebelow|]. cbn. intros row Hrow.
      destruct (decide _) as [Heq|]; [by rewrite <- Heq | done].
    + unfold commit_expense. cbn [expenses]. apply Forall_fmap.
      rewrite Forall_forall in Howners. apply Forall_forall. intros row Hrow. cbn.
      destruct (decide _); [|by apply Howners].
      rewrite Howner. now apply Howners.
  - intros expense_id. unfold delete_expense.
    destruct (owned_expense _ _ _) as [expense|]; [|exact Hc].
    cbn [snd]. split; [exact Husers|].
    repeat split; cbn [users expenses next_user_id next_expense_id];
      [by apply NoDup_fmap_filter | by apply Forall_filter_keep
      | by apply Forall_filter_keep].
Qed.

Lemma expense_writes_keep_constraints_witness :
  constraints (create_expense lunch bob_row 5000 ledger_db).2 /\
  constraints (update_expense 2 amount_patch bob_row 5000 ledger_db).2 /\
  constraints (delete_expense 2 bob_row ledger_db).2.
Proof.
  destruct (expense_writes_keep_constraints bob_row ledger_db ledger_db_constraints)
    as (Hcreate & Hupdate & Hdelete).
  split; [apply Hcreate; vm_compute; right; left | split; [apply Hupdate | apply Hdelete]].
Defined.

(** ** Accounts and tokens *)

Section replace_row.
Context {A : Type} (key : A -> Z) (P : A -> Prop) `{forall x, Decision (P x)}.

(** A query over a table in which the rows of key [k] were rewritten to
    [new]: when [new] qualifies and no row of another key does, the query
    finds [new]. *)
Lemma first_filter_replace (k : Z) (new : A) (l : list A) :
  P new -> (exists x, x ∈ l /\ key x = k) ->
  (forall y, y ∈ l -> key y <> k -> ~ P y) ->
  first (filter P ((λ row, if decide (key row = k) then new else row) <$> l)) = Some new.
Proof.
  intros Hnew. induction l as [|a l IH]; [by intros (x & ?%elem_of_nil & _)|].
  intros (x & Hx & Hk) Hothers. rewrite fmap_cons, filter_cons.
  destruct (decide (key a = k)) as [Ha|Ha].
  - now rewrite decide_True.
  - rewrite decide_False by (apply Hothers; [by left | done]).
    apply IH.
    + apply elem_of_cons in Hx as [->|Hx]; [done | eauto].
    + intros y Hy. apply Hothers. by right.
Qed.

End replace_row.

Lemma first_filter_nil {A} (P : A -> Prop) `{forall x, Decision (P x)} (l : list A) :
  first (filter P l) = None -> filter P l = [].
Proof. unfold first. now rewrite head_None. Qed.

Section account_facts.
Context {jose : Jose} {pwd_context : CryptContext} (settings : Settings).

(** X5. After a successful [register], [login] with the registered username
    and password succeeds, at any later time, with a token whose subject is
    that username; so does [login] with the registered email, provided no
    earlier user has that email as username (the username lookup comes
    first and would pick that user). *)
Theorem register_then_login (user_data : UserCreate.t) (salt : string)
    (registered now : Z) (db db' : Session) (response : UserResponse.t) :
  register user_data salt registered db = (Ok response, db') ->
  let token :=
    mkToken
      (jwt_encode
         (<["exp" := JNum (now + 60 * ACCESS_TOKEN_EXPIRE_MINUTES settings)]>
            (<["sub" := JStr (UserCreate.username user_data)]> ∅))
         (SECRET_KEY settings) (ALGORITHM settings))
      "bearer" in
  login settings (UserCreate.username user_data) (UserCreate.password user_data) now db'
    = Ok token /\
  ((forall u, u ∈ users db -> User.username u <> UserCreate.email user_data) ->
   login settings (UserCreate.email user_data) (UserCreate.password user_data) now db'
     = Ok token).
Proof.
  intros Hreg token. unfold register in Hreg.
  destruct (first (filter (λ u, User.email u = _) (users db))) eqn:Hemail; [discriminate|].
  destruct (first (filter (λ u, User.username u = _) (users db))) eqn:Hname;
    [discriminate|].
  cbn [add_user] in Hreg. injection Hreg as _ <-.
  set (new_user := User.mk _ _ _ _ _ _ _).
  apply first_filter_nil in Hemail. apply first_filter_nil in Hname.
  assert (Hfound : forall form_username,
    login_lookup form_username (mkSession (users db ++ [new_user]) (expenses db)
                                  (next_user_id db + 1) (next_expense_id db))
      = Some new_user ->
    login settings form_username (UserCreate.password user_data) now
      (mkSession (users db ++ [new_user]) (expenses db)
         (next_user_id db + 1) (next_expense_id db)) = Ok token).
  { intros form_username Hlookup. rewrite login_unfold, Hlookup.
    unfold verify_password, new_user, get_password_hash. cbn [User.hashed_password].
    rewrite pwd_verify_hash. reflexivity. }
  split.
  - apply Hfound. unfold login_lookup. cbn [users].
    rewrite filter_app, Hname. cbn [app]. rewrite filter_cons.
    now rewrite decide_True.
  - intros Hshadow. apply Hfound. unfold login_lookup. cbn [users].
    rewrite !filter_app, Hemail.
    assert (Hnone : filter (λ u, User.username u = UserCreate.email user_data) (users db)
                    = []).
    { apply first_filter_nil, first_filter_None. intros u Hu. now apply Hshadow. }
    rewrite Hnone. cbn [app]. rewrite !filter_cons.
    destruct (decide (User.username new_user = UserCreate.email user_data)); [done|].
    cbn [filter list_filter first head]. now rewrite decide_True.
Qed.

(** X6. After [update_profile] has changed the username, a token whose
    subject is the old username no longer authenticates (the guard looks the
    subject up as a username and finds nobody), and a token whose subject is
    the new username authenticates as the updated row. *)
Theorem username_change_invalidates_token (user_update : UserUpdate.t)
    (current_user : User.t) (salt new_username : string) (db db' : Session)
    (response : UserResponse.t) :
  users_constraints db -> current_user ∈ users db ->
  update_profile user_update current_user salt db = (Ok response, db') ->
  UserUpdate.username user_update = Some new_username ->
  new_username <> "" -> new_username <> User.username current_user ->
  (forall token now,
     verify_token settings token credentials_exception now
       = Ok (JStr (User.username current_user)) ->
     get_current_user settings token now db' = Raise credentials_exception) /\
  (forall token now,
     verify_token settings token credentials_exception now = Ok (JStr new_username) ->
     get_current_user settings token now db'
       = Ok (update_profile_fields user_update current_user salt)).
Proof.
  intros (Hids & _ & Hnames & _) Hcur Hupdate Hpatch Hne Hdiff.
  unfold update_profile in Hupdate.
  destruct (taken_by_other (UserUpdate.email _) _ _ _); [discriminate|].
  destruct (taken_by_other (UserUpdate.username _) _ _ _) eqn:Hfree; [discriminate|].
  injection Hupdate as _ <-.
  set (updated := update_profile_fields user_update current_user salt).
  assert (Htruthy : truthy_str new_username = true) by now apply truthy_str_true.
  assert (Hupdated : User.username updated = new_username).
  { unfold updated, update_profile_fields. cbn [User.username]. rewrite Hpatch.
    cbv beta iota. now rewrite Htruthy. }
  assert (Hrow : forall y, y ∈ users db -> User.id y <> User.id current_user ->
            y <> current_user) by (intros y _ Hid ->; done).
  assert (Hfresh : forall y, y ∈ users db -> User.id y <> User.id current_user ->
            User.username y <> new_username).
  { intros y Hy Hid.
    pose proof (not_taken_fresh _ User.username current_user db Hfree Hnames Hcur
                  y Hy (Hrow y Hy Hid)) as Hy'.
    rewrite Hpatch in Hy'. cbv beta iota in Hy'. now rewrite Htruthy in Hy'. }
  assert (Hjson : forall name : string,
    filter (λ u, JStr (User.username u) = JStr name) (users (commit_user updated db)) =
    filter (λ u, User.username u = name) (users (commit_user updated db))).
  { intros name. apply list_filter_iff. intros u.
    split; [now intros [= ->] | now intros ->]. }
  split; intros token now Hverify; unfold get_current_user; rewrite Hverify, Hjson.
  - assert (Hnone : first (filter (λ u, User.username u = User.username current_user)
                             (users (commit_user updated db))) = None).
    { apply first_filter_None. unfold commit_user. cbn [users].
      intros u (y & -> & Hy)%list_elem_of_fmap.
      destruct (decide (User.id y = User.id updated)) as [Hid|Hid]; [congruence|].
      intros Heq. apply (Hrow y Hy Hid).
      now apply (NoDup_fmap_eq User.username (users db)). }
    now rewrite Hnone.
  - unfold commit_user. cbn [users].
    rewrite (first_filter_replace User.id); [done | done | eauto |].
    intros y Hy Hid. now apply Hfresh.
Qed.

(** X7. After [delete_account], a token whose subject is the deleted user's
    username no longer authenticates: the guard answers 401. *)
Theorem delete_account_invalidates_token (current_user : User.t) (db : Session) :
  users_constraints db -> current_user ∈ users db ->
  forall token now,
    verify_token settings token credentials_exception now
      = Ok (JStr (User.username current_user)) ->
    get_current_user settings token now (delete_account current_user db).2
      = Raise credentials_exception.
Proof.
  intros (_ & _ & Hnames & _) Hcur token now Hverify.
  unfold get_current_user. rewrite Hverify.
  assert (Hnone : first (filter (λ u, JStr (User.username u)
                                      = JStr (User.username current_user))
                           (users (delete_account current_user db).2)) = None).
  { apply first_filter_None. unfold delete_account. cbn [snd users].
    intros u [Hid Hu]%list_elem_of_filter [= Heq]. apply Hid.
    now rewrite (NoDup_fmap_eq User.username (users db) u current_user). }
  now rewrite Hnone.
Qed.

(** X8. The auth guard.  When [get_current_active_user] lets a request
    through, the user it hands to the handler is a row of the table, is
    active, and bears the username the token verifies to; when it does not,
    the error is the 401 "Could not validate credentials" or the 400
    "Inactive user", and nothing else. *)
Theorem auth_guard_sound (token : jwt) (now : Z) (db : Session) :
  (forall user,
     get_current_active_user (get_current_user settings token now db) = Ok user ->
     user ∈ users db /\ User.is_active user <> 0 /\
     verify_token settings token credentials_exception now
       = Ok (JStr (User.username user))) /\
  (forall e,
     get_current_active_user (get_current_user settings token now db) = Raise e ->
     e = HTTPException 401 "Could not validate credentials" \/
     e = HTTPException 400 "Inactive user").
Proof.
  unfold get_current_active_user, get_current_user.
  assert (Hraise : forall e,
    verify_token settings token credentials_exception now = Raise e ->
    e = credentials_exception).
  { unfold verify_token. intros e. repeat case_match; congruence. }
  destruct (verify_token settings token credentials_exception now)
    as [username|e0] eqn:Hverify.
  - destruct (first (filter _ (users db))) as [user|] eqn:Hfirst.
    + apply first_filter_Some in Hfirst as [Hin <-].
      destruct (User.is_active user =? 0) eqn:Hactive; split.
      * discriminate.
      * intros e [= <-]. now right.
      * intros ? [= <-]. repeat split; [done | lia].
      * discriminate.
    + split; [discriminate | intros e [= <-]; now left].
  - split; [discriminate|]. intros e [= <-]. left. now apply Hraise.
Qed.

End account_facts.

Lemma ledger_db_users_constraints : users_constraints ledger_db.
Proof. apply ledger_db_constraints. Qed.

Lemma register_then_login_witness :
  @login ref_jose ref_pwd_context default_settings "bob" "secret2" 1000 bob_db =
    @login ref_jose ref_pwd_context default_settings "bob@example.com" "secret2" 1000 bob_db /\
  exists token,
    @login ref_jose ref_pwd_context default_settings "bob" "secret2" 1000 bob_db = Ok token.
Proof.
  destruct (@register_then_login ref_jose ref_pwd_context default_settings
              bob "t" 200 1000 ann_db bob_db
              (UserResponse.mk "bob@example.com" "bob" None 2 1 200))
    as [Hname Hemail]; [vm_compute; reflexivity|].
  split; [|eexists; exact Hname].
  etransitivity; [exact Hname|]. symmetry. apply Hemail.
  apply Forall_forall. apply (bool_decide_unpack _). vm_compute. exact I.
Defined.

Lemma username_change_invalidates_token_witness :
  let db' := (@update_profile ref_pwd_context rename_patch bob_row "v" ledger_db).2 in
  @get_current_user ref_jose default_settings bob_token 3000 ledger_db = Ok bob_row /\
  @get_current_user ref_jose default_settings bob_token 3000 db'
    = Raise credentials_exception.
Proof.
  cbv zeta. split; [vm_compute; reflexivity|].
  eapply (@username_change_invalidates_token ref_jose ref_pwd_context default_settings
            rename_patch bob_row "v" "robert" ledger_db);
    [ exact ledger_db_users_constraints | vm_compute; right; left
    | vm_compute; reflexivity | reflexivity | discriminate | discriminate
    | vm_compute; reflexivity ].
Defined.

Lemma delete_account_invalidates_token_witness :
  @get_current_user ref_jose default_settings bob_token 3000
    (delete_account bob_row ledger_db).2 = Raise credentials_exception.
Proof.
  apply (@delete_account_invalidates_token ref_jose default_settings bob_row ledger_db);
    [ exact ledger_db_users_constraints | vm_compute; right; left
    | vm_compute; reflexivity ].
Defined.

(** ** The ledger: writes and reads *)

(** X9. [create_expense] attributes the new expense to the caller and dates
    it now when the request gives no date.  With ids below the counter, the
    caller's expenses are the previous ones followed by the new one, the
    caller reads it back under its id, and any other user gets 404 for that
    id. *)
Theorem create_expense_then_get (expense_data : ExpenseCreate.t) (current_user : User.t)
    (now : Z) (db : Session) :
  Forall (λ e, Expense.id e < next_expense_id db) (expenses db) ->
  let new_expense := (create_expense expense_data current_user now db).1 in
  let db' := (create_expense expense_data current_user now db).2 in
  Expense.user_id new_expense = User.id current_user /\
  Expense.id new_expense = next_expense_id db /\
  Expense.date new_expense = Some (default now (ExpenseCreate.date expense_data)) /\
  owned_by current_user db' = owned_by current_user db ++ [new_expense] /\
  get_expense (Expense.id new_expense) current_user db' = Ok new_expense /\
  (forall other, User.id other <> User.id current_user ->
     owned_by other db' = owned_by other db /\
     get_expense (Expense.id new_expense) other db' = Raise expense_not_found).
Proof.
  intros Hbelow new_expense db'. rewrite Forall_forall in Hbelow.
  unfold create_expense in new_expense, db'. cbn [fst snd] in new_expense, db'.
  assert (Hfresh : forall user : User.t,
    filter (λ e, Expense.id e = next_expense_id db /\ Expense.user_id e = User.id user)
      (expenses db) = []).
  { intros user. apply first_filter_nil, first_filter_None.
    intros e He [Hid _]. apply Hbelow in He. lia. }
  split_facts; try done.
  - unfold owned_by, db'. cbn [expenses]. rewrite filter_app, filter_cons.
    now rewrite decide_True.
  - unfold get_expense, owned_expense, db'. cbn [expenses Expense.id new_expense].
    rewrite filter_app, Hfresh, filter_cons. now rewrite decide_True.
  - intros other Hother. split.
    + unfold owned_by, db'. cbn [expenses]. rewrite filter_app, filter_cons.
      rewrite decide_False by (cbn; congruence). apply app_nil_r.
    + unfold get_expense, owned_expense, db'. cbn [expenses Expense.id new_expense].
      rewrite filter_app, Hfresh, filter_cons.
      now rewrite decide_False by (cbn; intros [_ ?]; congruence).
Qed.

Lemma create_expense_then_get_witness :
  let new_expense := (create_expense lunch bob_row 5000 ledger_db).1 in
  let db' := (create_expense lunch bob_row 5000 ledger_db).2 in
  get_expense 4 bob_row db' = Ok new_expense /\
  get_expense 4 ann_row db' = Raise expense_not_found /\
  Expense.title <$> owned_by bob_row db' = ["bus"; "lunch"].
Proof.
  cbv zeta.
  destruct (create_expense_then_get lunch bob_row 5000 ledger_db)
    as (_ & _ & _ & Hmine & Hget & Hother);
    [apply ledger_db_constraints|].
  split; [exact Hget|]. split; [|rewrite Hmine; vm_compute; reflexivity].
  apply (Hother ann_row). vm_compute. discriminate.
Defined.

(** X10. After a successful [update_expense], [get_expense] by the same
    caller under the same id returns the row the update returned, and the
    table has as many rows as before. *)
Theorem update_expense_then_get (expense_id : Z) (expense_update : ExpenseUpdate.t)
    (current_user : User.t) (now : Z) (db db' : Session) (updated : Expense.t) :
  update_expense expense_id expense_update current_user now db = (Ok updated, db') ->
  get_expense expense_id current_user db' = Ok updated /\
  length (expenses db') = length (expenses db).
Proof.
  unfold update_expense.
  destruct (owned_expense _ _ _) as [expense|] eqn:Howned; [|discriminate].
  destruct (setattrs expense expense_update now) as [row|] eqn:Hset; [|discriminate].
  intros [= -> <-].
  apply setattrs_keeps in Hset as (Hid & Howner & _).
  apply owned_expense_Some in Howned as (Hin & Heid & Heowner).
  split; [|unfold commit_expense; cbn [expenses]; apply length_fmap].
  unfold get_expense, owned_expense, commit_expense. cbn [expenses].
  rewrite (first_filter_replace Expense.id); [done | | |].
  - split; congruence.
  - exists expense. split; [done | congruence].
  - intros y _ Hy [Hyid _]. congruence.
Qed.

Lemma update_expense_then_get_witness :
  exists updated,
    get_expense 2 bob_row (update_expense 2 amount_patch bob_row 5000 ledger_db).2
      = Ok updated /\
    Expense.amount updated = 12.5%float /\ Expense.updated_at updated = 5000.
Proof.
  eexists. split.
  { apply (update_expense_then_get 2 amount_patch bob_row 5000 ledger_db).
    vm_compute. reflexivity. }
  split; vm_compute; reflexivity.
Defined.

(** X11. After a successful [delete_expense] no caller finds that id any
    more, deleting it again answers 404, and the rows of every other id are
    the ones that were there. *)
Theorem delete_expense_then_get (expense_id : Z) (current_user : User.t)
    (db db' : Session) (message : string) :
  delete_expense expense_id current_user db = (Ok message, db') ->
  (forall caller, get_expense expense_id caller db' = Raise expense_not_found) /\
  delete_expense expense_id current_user db' = (Raise expense_not_found, db') /\
  (forall e, e ∈ expenses db' <-> e ∈ expenses db /\ Expense.id e <> expense_id) /\
  users db' = users db.
Proof.
  unfold delete_expense at 1.
  destruct (owned_expense _ _ _) as [expense|] eqn:Howned; [|discriminate].
  intros [= _ <-].
  apply owned_expense_Some in Howned as (Hin & Hid & _).
  assert (Hgone : forall caller,
    owned_expense expense_id caller
      (mkSession (users db)
         (filter (λ e, Expense.id e <> Expense.id expense) (expenses db))
         (next_user_id db) (next_expense_id db)) = None).
  { intros caller. apply owned_expense_None.
    intros (e & He & Heid & _). cbn [expenses] in He.
    apply list_elem_of_filter in He as [Hne _]. congruence. }
  split_facts.
  - intros caller. unfold get_expense. now rewrite Hgone.
  - unfold delete_expense. now rewrite Hgone.
  - intros e. cbn [expenses]. rewrite list_elem_of_filter, Hid. tauto.
  - done.
Qed.

Lemma delete_expense_then_get_witness :
  get_expense 2 bob_row (delete_expense 2 bob_row ledger_db).2 = Raise expense_not_found /\
  Expense.id <$> expenses (delete_expense 2 bob_row ledger_db).2 = [1; 3].
Proof.
  split; [|vm_compute; reflexivity].
  apply (delete_expense_then_get 2 bob_row ledger_db _ "Expense deleted successfully").
  vm_compute. reflexivity.
Defined.

(** ** The ledger: listing and statistics *)

Lemma StronglySorted_app_inv {A} (R : A -> A -> Prop) (l1 l2 : list A) :
  StronglySorted R (l1 ++ l2) -> StronglySorted R l1 /\ StronglySorted R l2.
Proof.
  induction l1 as [|a l1 IH]; cbn [app]; intros Hsorted; [split; [constructor | done]|].
  inversion Hsorted as [|? ? Htail Hhead]; subst.
  destruct (IH Htail) as [H1 H2]. split; [|done].
  constructor; [done|]. now apply Forall_app in Hhead as [? _].
Qed.

(** X12. A page of [get_expenses] holds at most [limit] expenses, each a row
    of the table that belongs to the caller and passes every filter given,
    newest date first; its length is what is left of the listing after
    [skip] rows, capped at [limit]. *)
Theorem get_expenses_page (skip limit : nat) (category : option ExpenseCategory)
    (start_date end_date : option Z) (current_user : User.t) (db : Session) :
  let page := get_expenses skip limit category start_date end_date current_user db in
  let listing := spec_list current_user category start_date end_date db in
  (length page <= limit)%nat /\
  length page = (limit `min` (length listing - skip))%nat /\
  (forall e, e ∈ page ->
     e ∈ expenses db /\ Expense.user_id e = User.id current_user /\
     passes category start_date end_date e) /\
  StronglySorted not_older page.
Proof.
  intros page listing. subst page. rewrite get_expenses_spec_list. fold listing.
  split_facts.
  - rewrite length_take. lia.
  - now rewrite length_take, length_drop.
  - intros e He. apply subseteq_take, subseteq_drop in He.
    unfold listing, spec_list in He.
    rewrite order_by_date_desc_perm in He.
    apply list_elem_of_filter in He. tauto.
  - assert (Hsorted : StronglySorted not_older listing)
      by apply order_by_date_desc_sorted.
    rewrite <- (take_drop skip listing) in Hsorted.
    apply StronglySorted_app_inv in Hsorted as [_ Hsorted].
    rewrite <- (take_drop limit (drop skip listing)) in Hsorted.
    now apply StronglySorted_app_inv in Hsorted as [Hsorted _].
Qed.

(** X13. Consecutive pages of [get_expenses] over an unchanged table join
    into the larger page: nothing is lost or repeated at the seam, and pages
    of [limit] rows from [skip = 0] on rebuild the whole listing. *)
Theorem get_expenses_pages_compose (skip n m : nat) (category : option ExpenseCategory)
    (start_date end_date : option Z) (current_user : User.t) (db : Session) :
  get_expenses skip n category start_date end_date current_user db
    ++ get_expenses (skip + n) m category start_date end_date current_user db
  = get_expenses skip (n + m) category start_date end_date current_user db /\
  get_expenses 0 skip category start_date end_date current_user db
    ++ drop skip (spec_list current_user category start_date end_date db)
  = spec_list current_user category start_date end_date db.
Proof.
  rewrite !get_expenses_spec_list. split.
  - rewrite <- drop_drop. apply take_take_drop.
  - rewrite drop_0. apply take_drop.
Qed.

Section filters.
Context {A : Type} (P : A -> Prop) `{forall x, Decision (P x)}.

Lemma filter_fmap_unchanged (f : A -> A) (l : list A) :
  (forall x, x ∈ l -> P x -> f x = x) ->
  (forall x, x ∈ l -> ~ P x -> ~ P (f x)) ->
  filter P (f <$> l) = filter P l.
Proof.
  induction l as [|a l IH]; [done|]. intros Hkeep Hout.
  rewrite fmap_cons, !filter_cons.
  assert (IHl : filter P (f <$> l) = filter P l)
    by (apply IH; intros x Hx; [apply Hkeep | apply Hout]; by right).
  destruct (decide (P a)) as [Ha|Ha].
  - rewrite (Hkeep a) by (done || by left). rewrite decide_True by done. now rewrite IHl.
  - rewrite decide_False by (apply Hout; [by left | done]). done.
Qed.

Lemma filter_filter_implied (Q : A -> Prop) `{forall x, Decision (Q x)} (l : list A) :
  (forall x, x ∈ l -> P x -> Q x) -> filter P (filter Q l) = filter P l.
Proof.
  induction l as [|a l IH]; [done|]. intros Himpl.
  assert (IHl : filter P (filter Q l) = filter P l)
    by (apply IH; intros x Hx; apply Himpl; by right).
  rewrite (filter_cons Q), (filter_cons P).
  destruct (decide (Q a)) as [Hq|Hq].
  - rewrite filter_cons. now rewrite IHl.
  - rewrite IHl. rewrite decide_False; [done|].
    intros Hp. apply Hq, Himpl; [by left | done].
Qed.

End filters.

(** What a user reads of the ledger is a function of the rows she owns. *)
Lemma reads_depend_on_owned (me : User.t) (db db' : Session) :
  owned_by me db' = owned_by me db ->
  (forall skip limit category start_date end_date,
     get_expenses skip limit category start_date end_date me db' =
     get_expenses skip limit category start_date end_date me db) /\
  (forall start_date end_date,
     get_expense_statistics start_date end_date me db' =
     get_expense_statistics start_date end_date me db) /\
  (forall expense_id, get_expense expense_id me db' = get_expense expense_id me db) /\
  (forall now, get_week_expenses me now db' = get_week_expenses me now db) /\
  (forall now, get_month_expenses me now db' = get_month_expenses me now db).
Proof.
  unfold owned_by. intros Howned.
  assert (Hsplit : forall (Q : Expense.t -> Prop) `{forall e, Decision (Q e)} (rows : list Expense.t),
    filter (λ e, Expense.user_id e = User.id me /\ Q e) rows =
    filter Q (filter (λ e, Expense.user_id e = User.id me) rows)).
  { intros Q ? rows. rewrite list_filter_filter. apply list_filter_iff. tauto. }
  assert (Hsplit' : forall (Q : Expense.t -> Prop) `{forall e, Decision (Q e)} (rows : list Expense.t),
    filter (λ e, Q e /\ Expense.user_id e = User.id me) rows =
    filter Q (filter (λ e, Expense.user_id e = User.id me) rows)).
  { intros Q ? rows. rewrite list_filter_filter. apply list_filter_iff. tauto. }
  split_facts.
  - intros. unfold get_expenses. now rewrite Howned.
  - intros. unfold get_expense_statistics, statistics_query. now rewrite Howned.
  - intros expense_id. unfold get_expense, owned_expense.
    now rewrite !(Hsplit' (λ e, Expense.id e = expense_id)), Howned.
  - intros now. unfold get_week_expenses.
    now rewrite !(Hsplit (λ e, date_ge e (now - days 7))), Howned.
  - intros now. unfold get_month_expenses.
    now rewrite !(Hsplit (λ e, date_ge e (now - days 30))), Howned.
Qed.

(** X14. No cross-user effect.  Whatever another user creates, updates or
    deletes (ids being unique), the rows I own are the same, and so is
    everything I read: my listings, my statistics, my lookups, my recent
    views. *)
Theorem other_users_writes_are_invisible (me other : User.t) (db : Session) :
  User.id other <> User.id me ->
  NoDup (Expense.id <$> expenses db) ->
  forall db',
    ((exists expense_data now, db' = (create_expense expense_data other now db).2) \/
     (exists expense_id expense_update now,
        db' = (update_expense expense_id expense_update other now db).2) \/
     (exists expense_id, db' = (delete_expense expense_id other db).2)) ->
    owned_by me db' = owned_by me db /\
    (forall skip limit category start_date end_date,
       get_expenses skip limit category start_date end_date me db' =
       get_expenses skip limit category start_date end_date me db) /\
    (forall start_date end_date,
       get_expense_statistics start_date end_date me db' =
       get_expense_statistics start_date end_date me db) /\
    (forall expense_id, get_expense expense_id me db' = get_expense expense_id me db).
Proof.
  intros Hother Hunique db' Hwrite.
  assert (Howned : owned_by me db' = owned_by me db).
  { unfold owned_by.
    destruct Hwrite as [(expense_data & now & ->)
                       | [(expense_id & expense_update & now & ->) | (expense_id & ->)]].
    - unfold create_expense. cbn [snd expenses]. rewrite filter_app, filter_cons.
      rewrite decide_False by (cbn; congruence). apply app_nil_r.
    - unfold update_expense.
      destruct (owned_expense _ _ _) as [expense|] eqn:Hfound; [|done].
      destruct (setattrs expense expense_update now) as [updated|] eqn:Hset; [|done].
      apply setattrs_keeps in Hset as (Hid & Howner & _).
      apply owned_expense_Some in Hfound as (Hin & _ & Heowner).
      unfold commit_expense. cbn [snd expenses].
      apply filter_fmap_unchanged.
      + intros row Hrow Hmine. destruct (decide _) as [Heq|]; [|done].
        rewrite Hid in Heq.
        apply (NoDup_fmap_eq Expense.id (expenses db)) in Heq; [|done..].
        congruence.
      + intros row Hrow Hnot. destruct (decide _); [congruence | done].
    - unfold delete_expense.
      destruct (owned_expense _ _ _) as [expense|] eqn:Hfound; [|done].
      apply owned_expense_Some in Hfound as (Hin & _ & Heowner).
      cbn [snd expenses]. apply filter_filter_implied.
      intros row Hrow Hmine Heq.
      apply (NoDup_fmap_eq Expense.id (expenses db)) in Heq; [|done..].
      congruence. }
  split; [exact Howned|].
  destruct (reads_depend_on_owned me db db' Howned) as (Hlist & Hstats & Hget & _).
  now split_facts.
Qed.

Lemma other_users_writes_are_invisible_witness :
  get_expenses 0 100 None None None ann_row (delete_expense 2 bob_row ledger_db).2 =
    get_expenses 0 100 None None None ann_row ledger_db /\
  get_expense_statistics None None ann_row
    (update_expense 2 amount_patch bob_row 5000 ledger_db).2 =
    get_expense_statistics None None ann_row ledger_db.
Proof.
  assert (Hother : User.id bob_row <> User.id ann_row) by (vm_compute; discriminate).
  assert (Hunique : NoDup (Expense.id <$> expenses ledger_db))
    by apply ledger_db_constraints.
  split.
  - apply (other_users_writes_are_invisible ann_row bob_row ledger_db Hother Hunique).
    right. right. now exists 2.
  - apply (other_users_writes_are_invisible ann_row bob_row ledger_db Hother Hunique).
    right. left. now exists 2, amount_patch, 5000.
Defined.

Lemma statistics_query_passes (start_date end_date : option Z) (current_user : User.t)
    (db : Session) :
  statistics_query start_date end_date current_user db =
    filter (λ e, Expense.user_id e = User.id current_user /\
                 passes None start_date end_date e) (expenses db).
Proof.
  rewrite <- (filter_if_passes None start_date end_date). reflexivity.
Qed.

(** X15. Statistics and listing agree: over the same date range, the
    statistics are computed from exactly the expenses the unfiltered-by-
    category listing shows, so [expense_count] is the length of that listing
    (and of the first page, when [limit] covers it), and the keys of
    [by_category] are the categories of the listed expenses. *)
Theorem statistics_match_listing (start_date end_date : option Z) (current_user : User.t)
    (db : Session) :
  let s := get_expense_statistics start_date end_date current_user db in
  let listing := spec_list current_user None start_date end_date db in
  statistics_query start_date end_date current_user db ≡ₚ listing /\
  ExpenseStatistics.expense_count s = length listing /\
  (forall limit, (length listing <= limit)%nat ->
     length (get_expenses 0 limit None start_date end_date current_user db) =
       ExpenseStatistics.expense_count s) /\
  dom (ExpenseStatistics.by_category s) = categories_of listing.
Proof.
  intros s listing.
  assert (Hperm : statistics_query start_date end_date current_user db ≡ₚ listing).
  { unfold listing, spec_list. rewrite order_by_date_desc_perm.
    now rewrite statistics_query_passes. }
  assert (Hcount : ExpenseStatistics.expense_count s = length listing).
  { rewrite <- Hperm. unfold s, get_expense_statistics.
    now destruct (statistics_query _ _ _ _). }
  split_facts; [done | done | |].
  - intros limit Hlimit. rewrite get_expenses_spec_list, drop_0. fold listing.
    rewrite take_ge by done. now symmetry.
  - unfold s, get_expense_statistics. rewrite statistics_of_dom.
    unfold categories_of. apply set_eq. intros c.
    rewrite !elem_of_list_to_set. now rewrite Hperm.
Qed.

(** X16. A date range whose start lies after its end selects nothing: the
    statistics are the all-zero result and every page of the listing is
    empty. *)
Theorem inverted_range_is_empty (start_date end_date : Z) (current_user : User.t)
    (db : Session) :
  end_date < start_date ->
  get_expense_statistics (Some start_date) (Some end_date) current_user db =
    ExpenseStatistics.mk 0%float 0 0%float ∅ /\
  (forall skip limit category,
     get_expenses skip limit category (Some start_date) (Some end_date) current_user db
       = []).
Proof.
  intros Hinverted.
  assert (Hnone : forall category,
    filter (λ e, Expense.user_id e = User.id current_user /\
                 passes category (Some start_date) (Some end_date) e) (expenses db) = []).
  { intros category. apply first_filter_nil, first_filter_None.
    intros e _ (_ & _ & Hge & Hle). unfold date_ge, date_le in *.
    destruct (Expense.date e); [lia | done]. }
  split.
  - unfold get_expense_statistics. now rewrite statistics_query_passes, Hnone.
  - intros skip limit category. rewrite get_expenses_spec_list.
    unfold spec_list. rewrite Hnone. cbn. now rewrite drop_nil, take_nil.
Qed.

Lemma inverted_range_is_empty_witness :
  get_expense_statistics (Some 3000) (Some 1000) ann_row ledger_db =
    ExpenseStatistics.mk 0%float 0 0%float ∅ /\
  get_expenses 0 100 None (Some 3000) (Some 1000) ann_row ledger_db = [].
Proof.
  destruct (inverted_range_is_empty 3000 1000 ann_row ledger_db) as [Hstats Hlist];
    [lia|].
  split; [exact Hstats | apply Hlist].
Defined.

(** ** Tokens and passwords *)

Section credential_facts.
Context {jose : Jose} {pwd_context : CryptContext} (settings : Settings).

(** X20. [verify_token] does not look at the [type] claim: a password-reset
    token verifies, for its hour, to its subject, the email.  Presented as a
    bearer token it is therefore refused by the guard only because the email
    is looked up as a username: the request fails with 401 when no username
    equals that email, and is let through as the user whose username does. *)
Theorem reset_token_passes_verify_token (email : string) (issued now : Z) (e : exn)
    (db : Session) :
  let token := create_reset_password_token settings email issued in
  verify_token settings token e now =
    (if issued + 3600 <? now then Raise e else Ok (JStr email)) /\
  (now <= issued + 3600 ->
     (forall u, u ∈ users db -> User.username u <> email) ->
     get_current_user settings token now db = Raise credentials_exception) /\
  (now <= issued + 3600 ->
     forall user,
       first (filter (λ u, User.username u = email) (users db)) = Some user ->
       get_current_user settings token now db = Ok user).
Proof.
  cbv zeta.
  assert (Hverify : forall e',
    verify_token settings (create_reset_password_token settings email issued) e' now =
      if issued + 3600 <? now then Raise e' else Ok (JStr email)).
  { intros e'. unfold verify_token, create_reset_password_token.
    rewrite create_access_token_payload. change (hours 1 =? 0) with false. cbv iota.
    rewrite (decode_issued settings _ email) by issued_payload.
    change (hours 1) with 3600. destruct (_ <? now); [done|].
    now rewrite lookup_insert_ne, lookup_insert_eq. }
  assert (Hjson :
    filter (λ u, JStr (User.username u) = JStr email) (users db) =
    filter (λ u, User.username u = email) (users db)).
  { apply list_filter_iff. intros u. split; [now intros [= ->] | now intros ->]. }
  split_facts.
  - apply Hverify.
  - intros Hfresh Hnone. unfold get_current_user. rewrite Hverify.
    destruct (_ <? now) eqn:Hexp; [lia|]. rewrite Hjson.
    assert (Hfirst : first (filter (λ u, User.username u = email) (users db)) = None)
      by now apply first_filter_None.
    now rewrite Hfirst.
  - intros Hfresh user Huser. unfold get_current_user. rewrite Hverify.
    destruct (_ <? now) eqn:Hexp; [lia|]. now rewrite Hjson, Huser.
Qed.

(** X21. After [update_profile] has stored a new password for an active
    user of the table, [login] with the stored username and that password
    succeeds, with a token whose subject is the stored username. *)
Theorem password_change_then_login (user_update : UserUpdate.t) (current_user : User.t)
    (salt password : string) (now : Z) (db db' : Session) (response : UserResponse.t) :
  users_constraints db -> current_user ∈ users db ->
  User.is_active current_user <> 0 ->
  update_profile user_update current_user salt db = (Ok response, db') ->
  UserUpdate.password user_update = Some password -> password <> "" ->
  login settings (UserResponse.username response) password now db' =
    Ok (mkToken
          (jwt_encode
             (<["exp" := JNum (now + 60 * ACCESS_TOKEN_EXPIRE_MINUTES settings)]>
                (<["sub" := JStr (UserResponse.username response)]> ∅))
             (SECRET_KEY settings) (ALGORITHM settings))
          "bearer").
Proof.
  intros (Hids & _ & Hnames & _) Hcur Hactive Hupdate Hpatch Hne.
  unfold update_profile in Hupdate.
  destruct (taken_by_other (UserUpdate.email _) _ _ _); [discriminate|].
  destruct (taken_by_other (UserUpdate.username _) _ _ _) eqn:Hfree; [discriminate|].
  injection Hupdate as <- <-.
  set (updated := update_profile_fields user_update current_user salt).
  cbn [UserResponse_from_attributes UserResponse.username].
  assert (Hlookup : login_lookup (User.username updated) (commit_user updated db)
                    = Some updated).
  { unfold login_lookup, commit_user. cbn [users].
    rewrite (first_filter_replace User.id); [done | done | eauto |].
    intros y Hy Hid.
    apply (not_taken_fresh _ User.username current_user db Hfree Hnames Hcur y Hy).
    intros ->. done. }
  rewrite login_unfold, Hlookup.
  assert (Hhash : verify_password password (User.hashed_password updated) = true).
  { unfold updated, update_profile_fields. cbn [User.hashed_password].
    rewrite Hpatch. cbv beta iota.
    apply truthy_str_true in Hne as ->. apply pwd_verify_hash. }
  rewrite Hhash. cbn [negb].
  assert (Hstill : (User.is_active updated =? 0) = false) by (cbn; lia).
  now rewrite Hstill.
Qed.

End credential_facts.

Lemma password_change_then_login_witness :
  exists token,
    @login ref_jose ref_pwd_context default_settings "bob" "correct horse" 6000
      (@update_profile ref_pwd_context new_password_patch bob_row "w" ledger_db).2
      = Ok token.
Proof.
  eexists.
  apply (@password_change_then_login ref_jose ref_pwd_context default_settings
           new_password_patch bob_row "w" "correct horse" 6000 ledger_db _
           (UserResponse.mk "bob@example.com" "bob" None 2 1 200));
    [ exact ledger_db_users_constraints | vm_compute; right; left
    | vm_compute; discriminate | vm_compute; reflexivity | reflexivity | discriminate ].
Defined.

(** ** Filters and the order of a listing *)

Section order_and_filter.
Context (P : Expense.t -> Prop) `{forall e, Decision (P e)}.

Lemma date_geb_refl (d : option Z) : date_geb d d = true.
Proof. destruct d; cbn; [lia | done]. Qed.

Lemma insert_desc_head (e : Expense.t) (rows : list Expense.t) :
  Forall (not_older e) rows -> insert_desc e rows = e :: rows.
Proof.
  destruct rows as [|x rows]; [done|]. intros Hall. cbn [insert_desc].
  apply Forall_cons in Hall as [Hx _]. unfold not_older in Hx. now rewrite Hx.
Qed.

Lemma filter_insert_desc (e : Expense.t) (rows : list Expense.t) :
  StronglySorted not_older rows ->
  filter P (insert_desc e rows) =
    if decide (P e) then insert_desc e (filter P rows) else filter P rows.
Proof.
  induction 1 as [|x rows Hsorted IH Hx]; cbn [insert_desc].
  - rewrite filter_cons. now destruct (decide (P e)).
  - destruct (date_geb (Expense.date e) (Expense.date x)) eqn:Hex.
    + rewrite filter_cons. destruct (decide (P e)); [|done].
      rewrite insert_desc_head; [done|].
      apply Forall_filter_keep. constructor; [exact Hex|].
      eapply Forall_impl; [exact Hx|]. intros y Hy.
      unfold not_older in *. eauto using date_geb_trans.
    + rewrite !(filter_cons _ x). destruct (decide (P x)).
      * rewrite IH. destruct (decide (P e)); [|done].
        cbn [insert_desc]. now rewrite Hex.
      * apply IH.
Qed.

(** Ordering by date and filtering commute: a filter removes rows from a
    listing and leaves the others in the order they had. *)
Lemma order_by_date_desc_filter (rows : list Expense.t) :
  order_by_date_desc (filter P rows) = filter P (order_by_date_desc rows).
Proof.
  induction rows as [|e rows IH]; [done|].
  change (order_by_date_desc (e :: rows)) with (insert_desc e (order_by_date_desc rows)).
  rewrite filter_insert_desc by apply order_by_date_desc_sorted.
  rewrite filter_cons. destruct (decide (P e)); [|done].
  change (order_by_date_desc (e :: filter P rows))
    with (insert_desc e (order_by_date_desc (filter P rows))).
  now rewrite IH.
Qed.

End order_and_filter.

(** X22. The week view is the month view restricted to the last seven days:
    the same expenses in the same order (rows of equal date standing in
    table order in both), so every expense of the week view is in the month
    view and the week view is no longer than the month view. *)
Theorem week_view_within_month_view (current_user : User.t) (now : Z) (db : Session) :
  get_week_expenses current_user now db =
    filter (λ e, date_ge e (now - days 7)) (get_month_expenses current_user now db) /\
  (forall e, e ∈ get_week_expenses current_user now db ->
     e ∈ get_month_expenses current_user now db) /\
  (length (get_week_expenses current_user now db)
     <= length (get_month_expenses current_user now db))%nat.
Proof.
  assert (Hweek : get_week_expenses current_user now db =
    filter (λ e, date_ge e (now - days 7)) (get_month_expenses current_user now db)).
  { unfold get_week_expenses, get_month_expenses.
    rewrite <- order_by_date_desc_filter. f_equal.
    rewrite list_filter_filter. apply list_filter_iff. intros e.
    unfold date_ge, days. destruct (Expense.date e); [|tauto].
    split; [intros [? ?] | intros (? & ? & ?)]; repeat split; (done || lia). }
  split_facts; [exact Hweek | |].
  - intros e. rewrite Hweek, list_elem_of_filter. tauto.
  - rewrite Hweek. apply length_filter.
Qed.

(** X23. Filters only narrow a listing.  The listing under a category, a
    start date and an end date is the listing with no filter at all, kept to
    the rows that pass them, in the order they had there; in particular
    [get_expenses] with a category and a [limit] covering the listing
    returns the unfiltered listing restricted to that category. *)
Theorem filters_narrow_listing (category : option ExpenseCategory)
    (start_date end_date : option Z) (current_user : User.t) (db : Session) :
  spec_list current_user category start_date end_date db =
    filter (passes category start_date end_date)
      (spec_list current_user None None None db) /\
  (forall limit c,
     (length (spec_list current_user None None None db) <= limit)%nat ->
     get_expenses 0 limit (Some c) None None current_user db =
       filter (λ e, Expense.category e = c)
         (get_expenses 0 limit None None None current_user db)).
Proof.
  assert (Hnarrow : forall category start_date end_date,
    spec_list current_user category start_date end_date db =
      filter (passes category start_date end_date)
        (spec_list current_user None None None db)).
  { intros c s t. unfold spec_list. rewrite <- order_by_date_desc_filter. f_equal.
    rewrite list_filter_filter. apply list_filter_iff. intros e.
    split; [|intros (Hp & Hu & _); by split].
    intros [Hu Hp]. split; [exact Hp|]. split; [exact Hu | by repeat split]. }
  split; [apply Hnarrow|].
  intros limit c Hlimit. rewrite !get_expenses_spec_list, !drop_0.
  rewrite (take_ge (spec_list current_user None None None db)) by done.
  rewrite Hnarrow, take_ge.
  - apply list_filter_iff. intros e. unfold passes. tauto.
  - etransitivity; [apply length_filter | done].
Qed.
